(** * SmartSwitch.turn_off_when_idle: a shallow embedding

    Source: the class [SmartSwitch] of
    [fritzbox_exploration_01--turn_off_when_idle.ipynb].

    Reading of the Python data:
    - a [datetime] is an integer count of microseconds ([Z]); [datetime.now()]
      reads the clock of the world, which only [time.sleep] and the round
      trip of a request advance;
    - a Python [float] (power in Watts, latency and duration in seconds,
      [offset], [lower_bound], [increment]) is read as the exact rational it
      denotes ([Q]); the constants of the loop (1/4, 9, 12.5, 2.5, 0.5) are
      dyadic, and so are the sums, differences and halves the loop forms;
    - the device is an oracle: the [n]-th request of power statistics is
      answered by [device n]; requests and commands are assumed to succeed;
    - the console output of the [silent=False] mode is left out: it changes
      neither the switch nor any variable of the loop. That building its
      text can raise is modelled apart, in [turn_off_when_idle_with_update].

    Two of these readings are refined where a statement depends on them:
    in [Clock] the clock moves between two readings and [time.sleep] may
    return late; in [Doubles] the variables [offset], [lower_bound] and
    [increment] are binary64 numbers with rounded operations. *)

From Stdlib Require Import ZArith QArith Qround Qminmax Bool List Lia Lqa.
From Stdlib Require Import Relations.Relation_Operators.
From Stdlib Require Ascii String.
From Stdlib Require Import Qpower.
From Stdlib Require PrimFloat SpecFloat FloatOps.
Import ListNotations.

Local Open Scope Q_scope.

(** ** Comparisons of numbers, as booleans *)

Definition Qltb (a b : Q) : bool := negb (Qle_bool b a).

(** [max([a, b])]: the first item is kept unless the second is greater. *)
Definition py_max2 (a b : Q) : Q := if Qltb a b then b else a.

(** ** Time *)

(** Microseconds in a second. *)
Definition usec : Z := 1000000.

(** [timedelta.total_seconds()] *)
Definition total_seconds (d : Z) : Q := inject_Z d / inject_Z usec.

(** Rounding to the nearest integer, ties to the even one: what
    [datetime.timedelta(seconds=x)] does with the microseconds of [x]. *)
Definition round_half_even (q : Q) : Z :=
  let f := Qfloor q in
  let r := q - inject_Z f in
  if Qltb r (1 # 2) then f
  else if Qltb (1 # 2) r then (f + 1)%Z
  else if Z.even f then f else (f + 1)%Z.

(** [datetime.timedelta(seconds=seconds)], in microseconds. *)
Definition timedelta (seconds : Q) : Z := round_half_even (seconds * inject_Z usec).

(** [nudge_timestamp(timestamp, seconds)] *)
Definition nudge_timestamp (timestamp : Z) (seconds : Q) : Z :=
  (timestamp + timedelta seconds)%Z.

(** ** The device and the world *)

(** What the device answers to one request of power statistics:
    [power_stats['data'][0]] (hundredths of a Watt), [power_stats['datatime']]
    and the time the round trip takes. *)
Record sample := {
  data0 : Z;
  datatime : Z;
  round_trip : Z
}.

(** The dictionary [get_latest_power_record] returns. *)
Record PowerRecord := {
  power : Q;
  record_time : Z;
  request_time : Z;
  response_time : Z;
  duration : Q;
  latency : Q
}.

Inductive event :=
| EvGetState
| EvFetch (at_time : Z)
| EvSleep (seconds : Q)
| EvSetSwitch (on : bool).

Record world := {
  now : Z;
  fetched : nat;
  switch_state : bool;
  trace : list event
}.

(** ** Computations: state, exceptions, and fuel for the [while] loops *)

Inductive outcome (A : Type) :=
| Ok (a : A) (w : world)
| Raised (w : world)
| OutOfFuel (w : world).
Arguments Ok {A} a w.
Arguments Raised {A} w.
Arguments OutOfFuel {A} w.

Definition M (A : Type) := world -> outcome A.

Definition ret {A} (a : A) : M A := fun w => Ok a w.

Definition bind {A B} (m : M A) (k : A -> M B) : M B :=
  fun w => match m w with
           | Ok a w' => k a w'
           | Raised w' => Raised w'
           | OutOfFuel w' => OutOfFuel w'
           end.

Definition out_of_fuel {A} : M A := fun w => OutOfFuel w.

Declare Scope sw_scope.
Delimit Scope sw_scope with sw.
Notation "x <- m ;; k" := (bind m (fun x => k))
  (at level 61, m at next level, right associativity) : sw_scope.
Notation "m ;;; k" := (bind m (fun _ => k))
  (at level 61, right associativity) : sw_scope.
Local Open Scope sw_scope.

Definition world_of {A} (o : outcome A) : world :=
  match o with Ok _ w | Raised w | OutOfFuel w => w end.

Definition log (e : event) (w : world) : world :=
  {| now := now w; fetched := fetched w; switch_state := switch_state w;
     trace := trace w ++ [e] |}.

(** [datetime.datetime.now()] *)
Definition datetime_now : M Z := fun w => Ok (now w) w.

(** [time.sleep(seconds)]: a negative argument raises [ValueError]; otherwise
    the clock stands, on return, at the first tick at which [seconds] have
    passed. *)
Definition sleep (seconds : Q) : M unit := fun w =>
  if Qltb seconds 0 then Raised w
  else Ok tt {| now := (now w + Qceiling (seconds * inject_Z usec))%Z;
                fetched := fetched w;
                switch_state := switch_state w;
                trace := trace w ++ [EvSleep seconds] |}.

(** The commands that change the state of the switch. *)
Definition is_command (e : event) : bool :=
  match e with EvSetSwitch _ => true | _ => false end.

Definition commands (t : list event) : list event := filter is_command t.
Arguments commands : simpl never.

Definition is_fetch (e : event) : bool :=
  match e with EvFetch _ => true | _ => false end.

Definition fetches (t : list event) : list event := filter is_fetch t.
Arguments fetches : simpl never.

Section SmartSwitch.

(** The device behind [self.__device]. *)
Variable device : nat -> sample.

(** [self.idle_threshold] *)
Variable idle_threshold : Q.

(** [get_switch_state] *)
Definition get_switch_state : M bool := fun w =>
  Ok (switch_state w) (log EvGetState w).

(** [set_switch] *)
Definition set_switch (arg : bool) : M unit := fun w =>
  Ok tt {| now := now w; fetched := fetched w; switch_state := arg;
           trace := trace w ++ [EvSetSwitch arg] |}.

(** [get_latest_power_record] *)
Definition get_latest_power_record : M PowerRecord := fun w =>
  let request := now w in
  let power_stats := device (fetched w) in
  let response := (request + round_trip power_stats)%Z in
  Ok {| power := inject_Z (data0 power_stats) / 100;
        record_time := datatime power_stats;
        request_time := request;
        response_time := response;
        duration := total_seconds (response - request);
        latency := total_seconds (response - datatime power_stats) |}
     {| now := response;
        fetched := S (fetched w);
        switch_state := switch_state w;
        trace := trace w ++ [EvFetch request] |}.

(** The [while next_time == init_time] loop of [get_reliable_power_record]. *)
Fixpoint wait_for_change (fuel : nat) (interval : Q) (init_time : Z)
    (power_record : PowerRecord) : M PowerRecord :=
  if (record_time power_record =? init_time)%Z then
    match fuel with
    | O => out_of_fuel
    | S fuel' =>
        sleep interval ;;;
        power_record' <- get_latest_power_record ;;
        wait_for_change fuel' interval init_time power_record'
    end
  else ret power_record.

(** [get_reliable_power_record] *)
Definition get_reliable_power_record (fuel : nat) (interval : Q) : M PowerRecord :=
  power_record <- get_latest_power_record ;;
  let init_time := record_time power_record in
  power_record <- get_latest_power_record ;;
  wait_for_change fuel interval init_time power_record.

(** The [while exec_time < datetime.datetime.now()] loop of
    [get_next_power_record]; [cycle] is the [timedelta] already built. *)
Fixpoint next_exec_time (fuel : nat) (cycle : Z) (exec_time : Z) : M Z :=
  t <- datetime_now ;;
  if (exec_time <? t)%Z then
    match fuel with
    | O => out_of_fuel
    | S fuel' => next_exec_time fuel' cycle (exec_time + cycle)%Z
    end
  else ret exec_time.

(** [get_next_power_record] *)
Definition get_next_power_record (fuel : nat) (base_time : Z) (cycle : Q)
    : M PowerRecord :=
  exec_time <- next_exec_time fuel (timedelta cycle) base_time ;;
  t <- datetime_now ;;
  let sleep_time := total_seconds (exec_time - t) in
  sleep sleep_time ;;;
  get_latest_power_record.

(** [turn_off_if_idle]: the value returned is the final state of the
    switch, [False] once it has been turned off. *)
Definition turn_off_if_idle (power_record : PowerRecord) (allowed_latency : Q)
    : M bool :=
  let device_idle := Qltb (power power_record) idle_threshold in
  let latency_ok := Qltb 0 (latency power_record)
                    && Qltb (latency power_record) allowed_latency in
  if device_idle && latency_ok then
    set_switch false ;;; ret false
  else ret true.

(** The variables of the detection loop of [turn_off_when_idle]. *)
Record loop_state := {
  switch_is_on : bool;
  base_time : Z;
  offset : Q;
  lower_bound : Q;
  increment : Q
}.

(** The [if 9 < latency < 12.5: ... elif 0 < latency < 2.5: ... else: ...]
    of the loop body: the new [offset], [lower_bound] and [increment].
    [precision_is_low] is the flag the method computes once, before the
    loop. *)
Definition retune (precision_is_low : bool) (latency : Q) (st : loop_state)
    : Q * Q * Q :=
  if Qltb 9 latency && Qltb latency (25 # 2) then
    let lower_bound' := py_max2 (offset st) (lower_bound st) in
    (offset st + increment st, lower_bound', increment st)
  else if Qltb 0 latency && Qltb latency (5 # 2) then
    let precision_can_be_increased :=
      Qeq_bool (offset st - increment st) (lower_bound st) in
    let increment' :=
      if precision_is_low && precision_can_be_increased
      then increment st / 2 else increment st in
    (offset st - increment', lower_bound st, increment')
  else
    (0, lower_bound st, increment st).

(** The variables after one pass: the answer of the gate, the retuned
    parameters, and [base_time = nudge_timestamp(record_time, seconds=offset)]. *)
Definition adjust (precision_is_low : bool) (now_on : bool)
    (power_record : PowerRecord) (st : loop_state) : loop_state :=
  let t := retune precision_is_low (latency power_record) st in
  {| switch_is_on := now_on;
     base_time := nudge_timestamp (record_time power_record) (fst (fst t));
     offset := fst (fst t);
     lower_bound := snd (fst t);
     increment := snd t |}.

(** One pass through the body of [while switch_is_on]. *)
Definition iteration (inner : nat) (allowed_latency : Q) (precision_is_low : bool)
    (st : loop_state) : M loop_state :=
  power_record <- get_next_power_record inner (base_time st) 10 ;;
  now_on <- turn_off_if_idle power_record allowed_latency ;;
  ret (adjust precision_is_low now_on power_record st).

(** [while switch_is_on: ...] *)
Fixpoint main_loop (fuel inner : nat) (allowed_latency : Q)
    (precision_is_low : bool) (st : loop_state) : M loop_state :=
  if switch_is_on st then
    match fuel with
    | O => out_of_fuel
    | S fuel' =>
        st' <- iteration inner allowed_latency precision_is_low st ;;
        main_loop fuel' inner allowed_latency precision_is_low st'
    end
  else ret st.

(** The first [n] passes of [while switch_is_on: ...], or fewer when the loop
    ends before: [main_loop] stopped after [n] passes, with the variables it
    has reached. *)
Fixpoint passes (n inner : nat) (allowed_latency : Q)
    (precision_is_low : bool) (st : loop_state) : M loop_state :=
  match n with
  | O => ret st
  | S n' =>
      if switch_is_on st then
        st' <- iteration inner allowed_latency precision_is_low st ;;
        passes n' inner allowed_latency precision_is_low st'
      else ret st
  end.

(** The variables as the method sets them before the loop. *)
Definition initial_state (now_on : bool) (power_record : PowerRecord) : loop_state :=
  {| switch_is_on := now_on;
     base_time := record_time power_record;
     offset := 0;
     lower_bound := -1;
     increment := 1 / 4 |}.

(** [precision_is_low = increment > 10**(-cycle_detection_precision)],
    evaluated where the method evaluates it: once, with [increment = 1/4]. *)
Definition initial_precision_is_low (cycle_detection_precision : Z) : bool :=
  Qltb (10 ^ (- cycle_detection_precision)) (1 / 4).

(** [turn_off_when_idle]; [fuel] bounds the passes of every [while]. *)
Definition turn_off_when_idle (fuel : nat) (allowed_latency : Q)
    (cycle_detection_precision : Z) : M unit :=
  now_on <- get_switch_state ;;
  if negb now_on then ret tt
  else
    power_record <- get_reliable_power_record fuel 2 ;;
    now_on <- turn_off_if_idle power_record (1 # 2) ;;
    let precision_is_low := initial_precision_is_low cycle_detection_precision in
    main_loop fuel fuel allowed_latency precision_is_low
              (initial_state now_on power_record) ;;;
    ret tt.

(** One pass of the loop, as a relation on its variables. *)
Definition iter_step (allowed_latency : Q) (precision_is_low : bool)
    (st st' : loop_state) : Prop :=
  switch_is_on st = true /\
  exists inner w w',
    iteration inner allowed_latency precision_is_low st w = Ok st' w'.

(** Any number of passes. *)
Definition iter_steps (allowed_latency : Q) (precision_is_low : bool)
    : loop_state -> loop_state -> Prop :=
  clos_refl_trans_1n loop_state (iter_step allowed_latency precision_is_low).

End SmartSwitch.

(** ** Statements and concrete data used below *)

(** The world after the one command [set_switch(False)]. *)
Definition switched_off (w : world) : world :=
  {| now := now w; fetched := fetched w; switch_state := false;
     trace := trace w ++ [EvSetSwitch false] |}.

(** The condition under which the gate acts. *)
Definition idle_with_latency (idle_threshold : Q) (power_record : PowerRecord)
    (allowed_latency : Q) : Prop :=
  power power_record < idle_threshold
  /\ 0 < latency power_record
  /\ latency power_record < allowed_latency.

(** The statement of the spec, read on the method: it returns [True], having
    issued the command that sets the output off. *)
Definition reports_true_and_switches_off (idle_threshold : Q)
    (power_record : PowerRecord) (allowed_latency : Q) (w : world) : Prop :=
  exists w',
    turn_off_if_idle idle_threshold power_record allowed_latency w = Ok true w'
    /\ commands (trace w') = commands (trace w) ++ [EvSetSwitch false].

(** The third pass of the recorded run: 3.07 W seen 0.95 s after the sample. *)
Definition idle_record : PowerRecord :=
  {| power := 307 # 100;
     record_time := 45000000;
     request_time := 45125000;
     response_time := 45950000;
     duration := 825 # 1000;
     latency := 95 # 100 |}.

Definition quiet_world : world :=
  {| now := 45950000; fetched := 5; switch_state := true; trace := [] |}.

(** A computation that issues no command to the switch, however it ends. *)
Definition quiet {A} (m : M A) : Prop :=
  forall w, commands (trace (world_of (m w))) = commands (trace w).

(** A world in which the switch is already off. *)
Definition off_world : world :=
  {| now := 15200000; fetched := 0; switch_state := false; trace := [] |}.

(** The device of the recorded run: a stale first answer, then the samples
    of 16:12:15, 16:12:35 and 16:12:45. *)
Definition recorded_device (n : nat) : sample :=
  match n with
  | 0%nat => {| data0 := 42736; datatime := 5000000; round_trip := 400000 |}
  | 1%nat => {| data0 := 42736; datatime := 15000000; round_trip := 820000 |}
  | 2%nat => {| data0 := 42736; datatime := 15000000; round_trip := 820000 |}
  | 3%nat => {| data0 := 293; datatime := 35000000; round_trip := 810000 |}
  | _ => {| data0 := 307; datatime := 45000000; round_trip := 825000 |}
  end.

(** The world in which the recorded run starts. *)
Definition recorded_world : world :=
  {| now := 15200000; fetched := 0; switch_state := true; trace := [] |}.

(** A device whose first two answers carry the same sample time; the third
    answer, two seconds later, carries a new one. *)
Definition stale_device (n : nat) : sample :=
  match n with
  | 0%nat => {| data0 := 42736; datatime := 5000000; round_trip := 400000 |}
  | 1%nat => {| data0 := 42736; datatime := 5000000; round_trip := 380000 |}
  | _ => {| data0 := 42736; datatime := 15000000; round_trip := 420000 |}
  end.

(** The three bands of latency the loop tells apart. *)
Definition too_early (latency : Q) : Prop := 9 < latency /\ latency < 25 # 2.
Definition acceptable (latency : Q) : Prop := 0 < latency /\ latency < 5 # 2.
Definition anomalous (latency : Q) : Prop := ~ too_early latency /\ ~ acceptable latency.

(** [n] halvings. *)
Definition halved (n : nat) (q : Q) : Q := Nat.iter n (fun x => x / 2) q.

(** The variables of the loop and the world after the bootstrap of the
    recorded run: the sample of 16:12:15 has been seen 1.42 s late. *)
Definition recorded_start : loop_state :=
  {| switch_is_on := true; base_time := 15000000;
     offset := 0; lower_bound := -1; increment := 1 / 4 |}.

Definition after_bootstrap : world :=
  {| now := 16420000; fetched := 2; switch_state := true; trace := [] |}.

Definition state_of (o : outcome loop_state) (default : loop_state) : loop_state :=
  match o with Ok st _ => st | _ => default end.

Definition record_of (o : outcome PowerRecord) : PowerRecord :=
  match o with
  | Ok r _ => r
  | _ => {| power := 0; record_time := 0; request_time := 0;
            response_time := 0; duration := 0; latency := 0 |}
  end.



Definition first_state : loop_state :=
  Eval vm_compute in
    state_of (iteration recorded_device 5 3 1 true recorded_start after_bootstrap)
             recorded_start.

Definition after_first_pass : world :=
  Eval vm_compute in
    world_of (iteration recorded_device 5 3 1 true recorded_start after_bootstrap).

(** The second pass: the request of 16:12:35.250. *)
Definition second_state : loop_state :=
  Eval vm_compute in
    state_of (iteration recorded_device 5 3 1 true first_state after_first_pass)
             recorded_start.

Definition after_second_pass : world :=
  Eval vm_compute in
    world_of (iteration recorded_device 5 3 1 true first_state after_first_pass).

(** A device that takes three seconds to answer: in the second pass the
    sample of 16:12:35 is seen 3.25 s late. *)
Definition slow_device (n : nat) : sample :=
  {| data0 := 42736; datatime := 35000000; round_trip := 3000000 |}.

Definition slow_record : PowerRecord :=
  Eval vm_compute in
    record_of (get_next_power_record slow_device 3 15250000 10 after_first_pass).

Definition after_slow_request : world :=
  Eval vm_compute in
    world_of (get_next_power_record slow_device 3 15250000 10 after_first_pass).

(** A device that never reports idle: after a stale first answer it has the
    samples of 16:12:15, 16:12:35, 16:12:45 and 16:12:55, each at 427.36 W. *)
Definition busy_device (n : nat) : sample :=
  match n with
  | 0%nat => {| data0 := 42736; datatime := 5000000; round_trip := 400000 |}
  | 1%nat => {| data0 := 42736; datatime := 15000000; round_trip := 820000 |}
  | 2%nat => {| data0 := 42736; datatime := 15000000; round_trip := 820000 |}
  | 3%nat => {| data0 := 42736; datatime := 35000000; round_trip := 810000 |}
  | 4%nat => {| data0 := 42736; datatime := 45000000; round_trip := 825000 |}
  | _ => {| data0 := 42736; datatime := 55000000; round_trip := 800000 |}
  end.

(** The bootstrap of the recorded run: the record it returns and the world
    it leaves. [busy_device] gives the same answers to these requests. *)
Definition bootstrap_record : PowerRecord :=
  Eval vm_compute in
    record_of (get_reliable_power_record recorded_device 1 2
                 (log EvGetState recorded_world)).

Definition bootstrap_world : world :=
  Eval vm_compute in
    world_of (get_reliable_power_record recorded_device 1 2
                (log EvGetState recorded_world)).

(** ** The helper [print_timestamp] and the status updates

    A time stamp is rendered from its hour, minute, second and microsecond,
    the count of microseconds being taken from midnight. *)

Module Timestamp.

Import Ascii String.
Local Open Scope Z_scope.

Definition hour (t : Z) : Z := (t / 3600000000) mod 24.
Definition minute (t : Z) : Z := (t / 60000000) mod 60.
Definition second (t : Z) : Z := (t / 1000000) mod 60.
Definition microsecond (t : Z) : Z := t mod 1000000.

Definition digit (n : Z) : ascii := ascii_of_nat (48 + Z.to_nat (n mod 10)).

Definition two_digits (n : Z) : string :=
  String (digit (n / 10)) (String (digit n) EmptyString).

Definition six_digits (n : Z) : string :=
  String (digit (n / 100000)) (String (digit (n / 10000))
    (String (digit (n / 1000)) (String (digit (n / 100))
      (String (digit (n / 10)) (String (digit n) EmptyString))))).

(** [timestamp.strftime("%H:%M:%S")] *)
Definition strftime_HMS (t : Z) : string :=
  (two_digits (hour t) ++ ":" ++ two_digits (minute t) ++ ":"
   ++ two_digits (second t))%string.

(** [timestamp.strftime("%H:%M:%S.%f")] *)
Definition strftime_HMSf (t : Z) : string :=
  (strftime_HMS t ++ "." ++ six_digits (microsecond t))%string.

(** The slice [s[:k]]: a negative [k] counts from the end. *)
Definition slice_to (k : Z) (s : string) : string :=
  let n := Z.of_nat (length s) in
  let stop := if k <? 0 then Z.max 0 (n + k) else Z.min k n in
  substring 0 (Z.to_nat stop) s.

(** [print_timestamp(timestamp, dig)], [dig] being [None] or an integer.
    With [None] the comparison [0 < dig] raises [TypeError], which the bare
    [except] turns into the full rendering. With an integer outside 0..6 no
    branch assigns [time_string], and [return time_string], outside the
    [try], raises [UnboundLocalError]: the result [None] here. *)
Definition print_timestamp (timestamp : Z) (dig : option Z) : option string :=
  match dig with
  | None => Some (strftime_HMSf timestamp)
  | Some d =>
      if d =? 0 then Some (strftime_HMS timestamp)
      else if (0 <? d) && (d <=? 6) then
        Some (slice_to (d - 6) (strftime_HMSf timestamp))
      else None
  end.

End Timestamp.

Section SmartSwitchUpdates.

Variable device : nat -> sample.
Variable idle_threshold : Q.

(** [_power_update]: the two calls of [print_timestamp] it makes, with
    [dig=0] and [dig=cycle_detection_precision]. The text it builds is only
    printed; what remains is that the call may raise. *)
Definition power_update (cycle_detection_precision : Z)
    (power_record : PowerRecord) : M unit :=
  match Timestamp.print_timestamp (record_time power_record) (Some 0%Z) with
  | None => fun w => Raised w
  | Some _ =>
      match Timestamp.print_timestamp (request_time power_record)
                                      (Some cycle_detection_precision) with
      | None => fun w => Raised w
      | Some _ => ret tt
      end
  end.

(** The body of the loop, with its status update. *)
Definition iteration_with_update (inner : nat) (allowed_latency : Q)
    (cycle_detection_precision : Z) (precision_is_low : bool)
    (st : loop_state) : M loop_state :=
  power_record <- get_next_power_record device inner (base_time st) 10 ;;
  power_update cycle_detection_precision power_record ;;;
  now_on <- turn_off_if_idle idle_threshold power_record allowed_latency ;;
  ret (adjust precision_is_low now_on power_record st).

Fixpoint main_loop_with_update (fuel inner : nat) (allowed_latency : Q)
    (cycle_detection_precision : Z) (precision_is_low : bool)
    (st : loop_state) : M loop_state :=
  if switch_is_on st then
    match fuel with
    | O => out_of_fuel
    | S fuel' =>
        st' <- iteration_with_update inner allowed_latency
                 cycle_detection_precision precision_is_low st ;;
        main_loop_with_update fuel' inner allowed_latency
          cycle_detection_precision precision_is_low st'
    end
  else ret st.

(** [turn_off_when_idle] with the calls of [_power_update] in their places. *)
Definition turn_off_when_idle_with_update (fuel : nat) (allowed_latency : Q)
    (cycle_detection_precision : Z) : M unit :=
  now_on <- get_switch_state ;;
  if negb now_on then ret tt
  else
    power_record <- get_reliable_power_record device fuel 2 ;;
    power_update cycle_detection_precision power_record ;;;
    now_on <- turn_off_if_idle idle_threshold power_record (1 # 2) ;;
    let precision_is_low := initial_precision_is_low cycle_detection_precision in
    main_loop_with_update fuel fuel allowed_latency cycle_detection_precision
      precision_is_low (initial_state now_on power_record) ;;;
    ret tt.

End SmartSwitchUpdates.

(** ** Further statements *)

(** The answer of the device to the last request sent in [w]. *)
Definition last_answer (device : nat -> sample) (w : world) : sample :=
  device (pred (fetched w)).

(** [r] is the record made of the last answer, received at the present time
    of [w]. *)
Definition fresh_record (device : nat -> sample) (r : PowerRecord) (w : world)
    : Prop :=
  (0 < fetched w)%nat
  /\ power r = inject_Z (data0 (last_answer device w)) / 100
  /\ record_time r = datatime (last_answer device w)
  /\ response_time r = now w
  /\ latency r = total_seconds (now w - datatime (last_answer device w)).

(** The third request of the recorded run and its answer. *)
Definition before_third_request : world :=
  {| now := 45125000; fetched := 4; switch_state := true; trace := [] |}.

Definition third_record : PowerRecord :=
  Eval vm_compute in
    record_of (get_latest_power_record recorded_device before_third_request).

Definition after_third_request : world :=
  Eval vm_compute in
    world_of (get_latest_power_record recorded_device before_third_request).

(** ** The variables of the loop as doubles

    [offset], [lower_bound] and [increment] are Python floats: IEEE 754
    binary64 numbers, whose sums and differences are rounded. Here they are
    the primitive floats of Rocq, which are these numbers with these
    operations. The integers [offset = 0] and [lower_bound = -1] of the
    source are held as the doubles of the same value, to which Python
    converts them in every operation with a float. The latency of a record,
    which the loop only compares with 9, 12.5, 0 and 2.5, stays the rational
    of the model above. *)

Module Doubles.

Import PrimFloat SpecFloat FloatOps.

(** The rational a finite double stands for. *)
Definition Q_of_float (x : float) : option Q :=
  match Prim2SF x with
  | S754_zero _ => Some 0
  | S754_finite s m e =>
      Some (inject_Z (if s then Z.neg m else Z.pos m) * 2 ^ e)
  | _ => None
  end.

Record loop_state := {
  switch_is_on : bool;
  base_time : Z;
  offset : float;
  lower_bound : float;
  increment : float
}.

(** [max([a, b])] *)
Definition py_max2 (a b : float) : float := if (a <? b)%float then b else a.

(** The [if 9 < latency < 12.5: ... elif 0 < latency < 2.5: ... else: ...]
    of the loop body, in double arithmetic. *)
Definition retune (precision_is_low : bool) (latency : Q) (st : loop_state)
    : float * float * float :=
  if Qltb 9 latency && Qltb latency (25 # 2) then
    let lower_bound' := py_max2 (offset st) (lower_bound st) in
    ((offset st + increment st)%float, lower_bound', increment st)
  else if Qltb 0 latency && Qltb latency (5 # 2) then
    let precision_can_be_increased :=
      (offset st - increment st =? lower_bound st)%float in
    let increment' :=
      if precision_is_low && precision_can_be_increased
      then (increment st / 2)%float else increment st in
    ((offset st - increment')%float, lower_bound st, increment')
  else
    (0%float, lower_bound st, increment st).

(** [datetime.timedelta(seconds=x)] for a double [x], in microseconds: the
    value of [x] rounded to the nearest microsecond, ties to even. It raises
    for a NaN, for an infinity, and when the number of days leaves
    -999999999 .. 999999999. *)
Definition timedelta_of_double (x : float) : option Z :=
  match Q_of_float x with
  | Some seconds =>
      let d := timedelta seconds in
      if ((-86399999913600000000 <=? d) && (d <=? 86399999999999999999))%Z
      then Some d else None
  | None => None
  end.

(** [nudge_timestamp(timestamp, seconds)] for a double [seconds] *)
Definition nudge_timestamp (timestamp : Z) (seconds : float) : option Z :=
  match timedelta_of_double seconds with
  | Some d => Some (timestamp + d)%Z
  | None => None
  end.

(** The variables after one pass. *)
Definition adjust (precision_is_low : bool) (now_on : bool)
    (power_record : PowerRecord) (st : loop_state) : M loop_state :=
  let t := retune precision_is_low (latency power_record) st in
  match nudge_timestamp (record_time power_record) (fst (fst t)) with
  | Some base_time' =>
      ret {| switch_is_on := now_on;
             base_time := base_time';
             offset := fst (fst t);
             lower_bound := snd (fst t);
             increment := snd t |}
  | None => fun w => Raised w
  end.

Section SmartSwitch.

Variable device : nat -> sample.
Variable idle_threshold : Q.

(** One pass through the body of [while switch_is_on]. *)
Definition iteration (inner : nat) (allowed_latency : Q) (precision_is_low : bool)
    (st : loop_state) : M loop_state :=
  power_record <- get_next_power_record device inner (base_time st) 10 ;;
  now_on <- turn_off_if_idle idle_threshold power_record allowed_latency ;;
  adjust precision_is_low now_on power_record st.

(** The first [n] passes of the loop, or fewer when it ends before. *)
Fixpoint passes (n inner : nat) (allowed_latency : Q)
    (precision_is_low : bool) (st : loop_state) : M loop_state :=
  match n with
  | O => ret st
  | S n' =>
      if switch_is_on st then
        st' <- iteration inner allowed_latency precision_is_low st ;;
        passes n' inner allowed_latency precision_is_low st'
      else ret st
  end.

End SmartSwitch.

(** The variables as the method sets them before the loop. *)
Definition initial_state (now_on : bool) (power_record : PowerRecord) : loop_state :=
  {| switch_is_on := now_on;
     base_time := record_time power_record;
     offset := 0%float;
     lower_bound := (-1)%float;
     increment := 0.25%float |}.


Definition state_of (o : outcome loop_state) (default : loop_state) : loop_state :=
  match o with Ok st _ => st | _ => default end.







(** The first pass of the recorded run, on the doubles. *)
Definition first_state : loop_state :=
  Eval vm_compute in
    state_of (iteration recorded_device 5 3 1 true
                (initial_state true bootstrap_record) after_bootstrap)
             (initial_state true bootstrap_record).

End Doubles.

(** ** The scheduler on a clock that moves

    In [get_next_power_record] the clock is read at every test of the loop
    (line 446), once more for the time to sleep (line 448) and again for the
    time of the request (line 382), and [time.sleep] may return late. Here
    every sight of the clock comes with a lag the program does not control:
    [lag n] is the time, in microseconds, by which the clock has moved on
    when it is seen for the [n]-th time (read, or reached again after a
    sleep). With [lag] constantly 0 this is the clock of the model above. *)

Module Clock.

Record world := {
  now : Z;
  sights : nat;
  fetched : nat;
  trace : list event
}.

Inductive outcome (A : Type) :=
| Ok (a : A) (w : world)
| Raised (w : world)
| OutOfFuel (w : world).
Arguments Ok {A} a w.
Arguments Raised {A} w.
Arguments OutOfFuel {A} w.

Definition M (A : Type) := world -> outcome A.

Definition ret {A} (a : A) : M A := fun w => Ok a w.

Definition bind {A B} (m : M A) (k : A -> M B) : M B :=
  fun w => match m w with
           | Ok a w' => k a w'
           | Raised w' => Raised w'
           | OutOfFuel w' => OutOfFuel w'
           end.

Definition out_of_fuel {A} : M A := fun w => OutOfFuel w.

Declare Scope clock_scope.
Notation "x <- m ;; k" := (bind m (fun x => k))
  (at level 61, m at next level, right associativity) : clock_scope.
Notation "m ;;; k" := (bind m (fun _ => k))
  (at level 61, right associativity) : clock_scope.
Local Open Scope clock_scope.
Local Open Scope Z_scope.

Section Lagging.

Variable lag : nat -> N.
Variable device : nat -> sample.

(** [datetime.datetime.now()] *)
Definition datetime_now : M Z := fun w =>
  let t := now w + Z.of_N (lag (sights w)) in
  Ok t {| now := t; sights := S (sights w); fetched := fetched w;
          trace := trace w |}.

(** [time.sleep(seconds)]: raises [ValueError] on a negative argument;
    otherwise returns when at least [seconds] have passed. *)
Definition sleep (seconds : Q) : M unit := fun w =>
  if Qltb seconds 0 then Raised w
  else Ok tt {| now := now w + Qceiling (seconds * inject_Z usec)
                       + Z.of_N (lag (sights w));
                sights := S (sights w);
                fetched := fetched w;
                trace := trace w ++ [EvSleep seconds] |}.

(** [get_power_stats]: the answer of the device, after its round trip. *)
Definition get_power_stats : M sample := fun w =>
  let power_stats := device (fetched w) in
  Ok power_stats {| now := now w + round_trip power_stats;
                    sights := sights w;
                    fetched := S (fetched w);
                    trace := trace w ++ [EvFetch (now w)] |}.

(** [get_latest_power_record] *)
Definition get_latest_power_record : M PowerRecord :=
  request <- datetime_now ;;
  power_stats <- get_power_stats ;;
  response <- datetime_now ;;
  ret {| power := (inject_Z (data0 power_stats) / 100)%Q;
         record_time := datatime power_stats;
         request_time := request;
         response_time := response;
         duration := total_seconds (response - request);
         latency := total_seconds (response - datatime power_stats) |}.

(** The [while exec_time < datetime.datetime.now()] loop. *)
Fixpoint next_exec_time (fuel : nat) (cycle : Z) (exec_time : Z) : M Z :=
  t <- datetime_now ;;
  if exec_time <? t then
    match fuel with
    | O => out_of_fuel
    | S fuel' => next_exec_time fuel' cycle (exec_time + cycle)
    end
  else ret exec_time.

(** [get_next_power_record] *)
Definition get_next_power_record (fuel : nat) (base_time : Z) (cycle : Q)
    : M PowerRecord :=
  exec_time <- next_exec_time fuel (timedelta cycle) base_time ;;
  t <- datetime_now ;;
  let sleep_time := total_seconds (exec_time - t) in
  sleep sleep_time ;;;
  get_latest_power_record.

End Lagging.

(** The time by which the clock moves on in [n] sights, the first of which
    is its sight number [from]. *)
Fixpoint lags (lag : nat -> N) (from n : nat) : Z :=
  match n with
  | O => 0
  | S n' => Z.of_N (lag from) + lags lag (S from) n'
  end.

(** What the clock shows when it is read for the [j]-th time after [w], the
    first reading being that of [j = 0], with nothing but readings since. *)
Definition seen (lag : nat -> N) (w : world) (j : nat) : Z :=
  now w + lags lag (sights w) (S j).



(** A clock that stands until its second sight, then jumps by five
    microseconds. *)
Definition jumping (n : nat) : N :=
  match n with 1%nat => 5%N | _ => 0%N end.

(** The world after the bootstrap of the recorded run. *)
Definition after_bootstrap : world :=
  {| now := 16420000; sights := 0; fetched := 2; trace := [] |}.

End Clock.

(** * Properties *)

(** ** The recorded run

    The test run of the notebook, [turn_off_when_idle(allowed_latency=1,
    cycle_detection_precision=3)]: requests at 16:12:25.000, 16:12:35.250 and
    16:12:45.125 (seconds 25, 35.25 and 45.125 here), then the switch is
    turned off. *)

Example recorded_run :
  turn_off_when_idle recorded_device 5 3 1 3 recorded_world
  = Ok tt {| now := 45950000; fetched := 5; switch_state := false;
             trace := [EvGetState; EvFetch 15200000; EvFetch 15600000;
                       EvSleep (total_seconds 8580000); EvFetch 25000000;
                       EvSleep (total_seconds 9430000); EvFetch 35250000;
                       EvSleep (total_seconds 9065000); EvFetch 45125000;
                       EvSetSwitch false] |}.
Proof. vm_compute. reflexivity. Qed.

Example recorded_increments :
  increment recorded_start == 1 # 4
  /\ increment first_state == 1 # 4
  /\ offset first_state == 1 # 4
  /\ increment second_state == 1 # 8
  /\ offset second_state == 1 # 8.
Proof. repeat split. Qed.

(** ** Comparisons *)

Lemma Qltb_lt (a b : Q) : Qltb a b = true <-> a < b.
Proof.
  unfold Qltb. rewrite negb_true_iff.
  destruct (Qle_bool b a) eqn:E.
  - apply Qle_bool_iff in E. split; [discriminate | intros H; exfalso; lra].
  - split; [intros _ | reflexivity].
    destruct (Qlt_le_dec a b) as [H | H]; [exact H |].
    apply Qle_bool_iff in H. congruence.
Qed.

Lemma Qltb_ge (a b : Q) : Qltb a b = false <-> b <= a.
Proof.
  split; intros H.
  - destruct (Qlt_le_dec a b) as [L | L]; [| exact L].
    apply Qltb_lt in L. congruence.
  - destruct (Qltb a b) eqn:E; [| reflexivity].
    apply Qltb_lt in E. exfalso; lra.
Qed.

(** ** The idle gate: [turn_off_if_idle] *)

Lemma idle_with_latency_dec idle_threshold power_record allowed_latency :
  Qltb (power power_record) idle_threshold
  && (Qltb 0 (latency power_record) && Qltb (latency power_record) allowed_latency)
  = true
  <-> idle_with_latency idle_threshold power_record allowed_latency.
Proof.
  unfold idle_with_latency.
  rewrite !andb_true_iff, !Qltb_lt. tauto.
Qed.

Lemma turn_off_if_idle_cases idle_threshold power_record allowed_latency w :
  (idle_with_latency idle_threshold power_record allowed_latency
   /\ turn_off_if_idle idle_threshold power_record allowed_latency w
      = Ok false (switched_off w))
  \/ (~ idle_with_latency idle_threshold power_record allowed_latency
      /\ turn_off_if_idle idle_threshold power_record allowed_latency w
         = Ok true w).
Proof.
  unfold turn_off_if_idle.
  destruct (Qltb (power power_record) idle_threshold
            && (Qltb 0 (latency power_record)
                && Qltb (latency power_record) allowed_latency)) eqn:E.
  - left. split; [apply idle_with_latency_dec; exact E | reflexivity].
  - right. split; [| reflexivity].
    intros H. apply idle_with_latency_dec in H. congruence.
Qed.

(** C1, as the spec words it, fails: on an idle record with a latency within
    the tolerance the method does not return [True]. *)
Lemma turn_off_if_idle_true_iff_fails :
  ~ (reports_true_and_switches_off 5 idle_record 1 quiet_world
     <-> idle_with_latency 5 idle_record 1).
Proof.
  intros [_ H].
  assert (I : idle_with_latency 5 idle_record 1)
    by (unfold idle_with_latency; simpl; repeat split; reflexivity).
  destruct (H I) as [w' [E _]].
  vm_compute in E. discriminate E.
Qed.

(** C1, amended: the method returns the final state of the switch. It issues
    the one command [set_switch(False)] and returns [False] if and only if
    [power < idle_threshold] and [0 < latency < allowed_latency]; in every
    other case it returns [True] and leaves the world, its trace included,
    as it found it. *)
Theorem turn_off_if_idle_iff :
  forall idle_threshold power_record allowed_latency w,
    (turn_off_if_idle idle_threshold power_record allowed_latency w
       = Ok false (switched_off w)
     <-> idle_with_latency idle_threshold power_record allowed_latency)
    /\ (turn_off_if_idle idle_threshold power_record allowed_latency w
          = Ok true w
        <-> ~ idle_with_latency idle_threshold power_record allowed_latency).
Proof.
  intros thr r al w.
  destruct (turn_off_if_idle_cases thr r al w) as [[I E] | [I E]];
    rewrite E; split; split; intros H;
    try reflexivity; try assumption; try discriminate H; try contradiction.
Qed.

(** The boundaries: [power == idle_threshold], [latency == 0],
    [latency == allowed_latency] and [latency < 0] all leave the switch on. *)
Lemma turn_off_if_idle_boundaries idle_threshold power_record allowed_latency w :
  (power power_record == idle_threshold
   \/ latency power_record <= 0
   \/ latency power_record == allowed_latency) ->
  turn_off_if_idle idle_threshold power_record allowed_latency w = Ok true w.
Proof.
  intros H.
  destruct (turn_off_if_idle_cases idle_threshold power_record allowed_latency w)
    as [[[A [B C]] _] | [_ E]]; [| exact E].
  destruct H as [H | [H | H]]; lra.
Qed.

(** ** Commands in the trace *)

Lemma commands_snoc t e :
  commands (t ++ [e]) = commands t ++ (if is_command e then [e] else []).
Proof.
  unfold commands. rewrite filter_app. simpl.
  destruct (is_command e); reflexivity.
Qed.

Lemma quiet_ret {A} (a : A) : quiet (ret a).
Proof. intros w. reflexivity. Qed.

Lemma quiet_out_of_fuel {A} : quiet (@out_of_fuel A).
Proof. intros w. reflexivity. Qed.

Lemma quiet_bind {A B} (m : M A) (k : A -> M B) :
  quiet m -> (forall a, quiet (k a)) -> quiet (bind m k).
Proof.
  intros Hm Hk w. specialize (Hm w). unfold bind.
  destruct (m w) as [a w1 | w1 | w1]; simpl in *; [| exact Hm | exact Hm].
  rewrite (Hk a w1). exact Hm.
Qed.

Lemma quiet_datetime_now : quiet datetime_now.
Proof. intros w. reflexivity. Qed.

Lemma quiet_sleep seconds : quiet (sleep seconds).
Proof.
  intros w. unfold sleep. destruct (Qltb seconds 0); simpl; [reflexivity |].
  rewrite commands_snoc. simpl. apply app_nil_r.
Qed.

Lemma quiet_get_latest_power_record device : quiet (get_latest_power_record device).
Proof.
  intros w. unfold get_latest_power_record. simpl.
  rewrite commands_snoc. simpl. apply app_nil_r.
Qed.

Create HintDb quiet.

#[local] Hint Resolve quiet_ret quiet_out_of_fuel quiet_datetime_now quiet_sleep
  quiet_get_latest_power_record : quiet.

Lemma quiet_wait_for_change device fuel interval init_time power_record :
  quiet (wait_for_change device fuel interval init_time power_record).
Proof.
  revert power_record.
  induction fuel as [| fuel IH]; intros r; simpl;
    destruct (record_time r =? init_time)%Z; auto with quiet.
  apply quiet_bind; [auto with quiet | intros _].
  apply quiet_bind; [auto with quiet | intros r']. apply IH.
Qed.

Lemma quiet_get_reliable_power_record device fuel interval :
  quiet (get_reliable_power_record device fuel interval).
Proof.
  unfold get_reliable_power_record.
  apply quiet_bind; [auto with quiet | intros r0].
  apply quiet_bind; [auto with quiet | intros r1].
  apply quiet_wait_for_change.
Qed.

Lemma quiet_next_exec_time fuel cycle exec_time :
  quiet (next_exec_time fuel cycle exec_time).
Proof.
  revert exec_time.
  induction fuel as [| fuel IH]; intros e; simpl;
    (apply quiet_bind; [auto with quiet | intros t]);
    destruct (e <? t)%Z; auto with quiet.
Qed.

Lemma quiet_get_next_power_record device fuel base_time cycle :
  quiet (get_next_power_record device fuel base_time cycle).
Proof.
  unfold get_next_power_record.
  apply quiet_bind; [apply quiet_next_exec_time | intros e].
  apply quiet_bind; [auto with quiet | intros t].
  apply quiet_bind; [auto with quiet | intros _].
  auto with quiet.
Qed.

(** One pass of the loop: either the gate leaves the switch on and no command
    is issued, or it issues the one command and clears [switch_is_on]. *)
Lemma iteration_commands device idle_threshold inner allowed_latency
    precision_is_low st w :
  match iteration device idle_threshold inner allowed_latency precision_is_low st w with
  | Ok st' w' =>
      (switch_is_on st' = true /\ commands (trace w') = commands (trace w))
      \/ (switch_is_on st' = false /\ switch_state w' = false
          /\ commands (trace w') = commands (trace w) ++ [EvSetSwitch false])
  | Raised w' | OutOfFuel w' => commands (trace w') = commands (trace w)
  end.
Proof.
  unfold iteration, bind at 1.
  pose proof (quiet_get_next_power_record device inner (base_time st) 10 w) as C.
  destruct (get_next_power_record device inner (base_time st) 10 w)
    as [r w1 | w1 | w1]; simpl in C; [| exact C | exact C].
  unfold bind.
  destruct (turn_off_if_idle_cases idle_threshold r allowed_latency w1)
    as [[_ E] | [_ E]]; rewrite E; simpl.
  - right. repeat split. rewrite commands_snoc, C. reflexivity.
  - left. split; [reflexivity | exact C].
Qed.

Lemma main_loop_commands device idle_threshold fuel inner allowed_latency
    precision_is_low st w :
  let o := main_loop device idle_threshold fuel inner allowed_latency
                     precision_is_low st w in
  (switch_is_on st = false -> o = Ok st w)
  /\ (commands (trace (world_of o)) = commands (trace w)
      \/ (commands (trace (world_of o)) = commands (trace w) ++ [EvSetSwitch false]
          /\ switch_state (world_of o) = false
          /\ exists st', o = Ok st' (world_of o) /\ switch_is_on st' = false)).
Proof.
  revert st w.
  induction fuel as [| fuel IH]; intros st w; simpl;
    (destruct (switch_is_on st) eqn:On;
     [| split; [reflexivity | left; reflexivity]]).
  - split; [discriminate | left; reflexivity].
  - split; [discriminate |].
    unfold bind.
    pose proof (iteration_commands device idle_threshold inner allowed_latency
                  precision_is_low st w) as It.
    destruct (iteration device idle_threshold inner allowed_latency
                precision_is_low st w) as [st1 w1 | w1 | w1];
      [| left; exact It | left; exact It].
    destruct (IH st1 w1) as [Stop Go].
    destruct It as [[On1 C1] | [On1 [Off1 C1]]].
    + rewrite <- C1. exact Go.
    + rewrite (Stop On1). simpl. right.
      repeat split; [exact C1 | exact Off1 |].
      exists st1. split; [reflexivity | exact On1].
Qed.

(** ** The top-level method *)

(** C8: when [get_switch_state] reports the switch off, [turn_off_when_idle]
    returns at once: the only thing it has done is to ask for the state; it
    has requested no power record, issued no command and has not slept. *)
Theorem turn_off_when_idle_already_off :
  forall device idle_threshold fuel allowed_latency cycle_detection_precision w,
    switch_state w = false ->
    let o := turn_off_when_idle device idle_threshold fuel allowed_latency
                                cycle_detection_precision w in
    o = Ok tt (log EvGetState w)
    /\ fetched (world_of o) = fetched w
    /\ fetches (trace (world_of o)) = fetches (trace w)
    /\ commands (trace (world_of o)) = commands (trace w)
    /\ now (world_of o) = now w.
Proof.
  intros device thr fuel al p w Off.
  unfold turn_off_when_idle, bind, get_switch_state.
  rewrite Off. simpl. repeat split.
  - unfold fetches. rewrite filter_app. simpl. apply app_nil_r.
  - rewrite commands_snoc. simpl. apply app_nil_r.
Qed.

Lemma turn_off_when_idle_already_off_witness :
  switch_state off_world = false
  /\ turn_off_when_idle recorded_device 5 3 1 2 off_world
     = Ok tt (log EvGetState off_world).
Proof.
  split; [reflexivity |].
  apply (turn_off_when_idle_already_off recorded_device 5 3 1 2 off_world).
  reflexivity.
Defined.

Lemma turn_off_when_idle_outcome device idle_threshold fuel allowed_latency
    cycle_detection_precision w :
  match turn_off_when_idle device idle_threshold fuel allowed_latency
                           cycle_detection_precision w with
  | Ok _ w' =>
      commands (trace w') = commands (trace w)
      \/ (commands (trace w') = commands (trace w) ++ [EvSetSwitch false]
          /\ switch_state w' = false)
  | Raised w' | OutOfFuel w' => commands (trace w') = commands (trace w)
  end.
Proof.
  unfold turn_off_when_idle, bind at 1, get_switch_state.
  assert (G : commands (trace (log EvGetState w)) = commands (trace w)).
  { simpl. rewrite commands_snoc. simpl. apply app_nil_r. }
  destruct (switch_state w); simpl; [| left; exact G].
  unfold bind at 1.
  pose proof (quiet_get_reliable_power_record device fuel 2 (log EvGetState w)) as R.
  rewrite G in R.
  destruct (get_reliable_power_record device fuel 2 (log EvGetState w))
    as [r w1 | w1 | w1]; simpl in R; [| exact R | exact R].
  unfold bind at 1.
  destruct (turn_off_if_idle_cases idle_threshold r (1 # 2) w1)
    as [[_ E] | [_ E]]; rewrite E; clear E.
  - destruct (main_loop_commands device idle_threshold fuel fuel allowed_latency
                (initial_precision_is_low cycle_detection_precision)
                (initial_state false r) (switched_off w1)) as [Stop _].
    unfold bind. rewrite (Stop eq_refl). simpl. right.
    split; [| reflexivity]. rewrite commands_snoc, R. reflexivity.
  - destruct (main_loop_commands device idle_threshold fuel fuel allowed_latency
                (initial_precision_is_low cycle_detection_precision)
                (initial_state true r) w1) as [_ Go].
    unfold bind.
    destruct (main_loop device idle_threshold fuel fuel allowed_latency
                (initial_precision_is_low cycle_detection_precision)
                (initial_state true r) w1) as [st' w2 | w2 | w2]; simpl in *.
    + destruct Go as [C | [C [Off _]]]; [left | right; split; [| exact Off]];
        rewrite C, R; reflexivity.
    + destruct Go as [C | [_ [_ [st' [E _]]]]]; [| discriminate E].
      rewrite C. exact R.
    + destruct Go as [C | [_ [_ [st' [E _]]]]]; [| discriminate E].
      rewrite C. exact R.
Qed.

(** C10: whatever the device answers and however the run ends, the commands
    [turn_off_when_idle] has added to the trace are none, or the single
    command [set_switch(False)]; no [set_switch(True)] is ever issued. When
    the command has been issued the method has returned, with the switch
    off. *)
Theorem turn_off_when_idle_commands :
  forall device idle_threshold fuel allowed_latency cycle_detection_precision w,
    let o := turn_off_when_idle device idle_threshold fuel allowed_latency
                                cycle_detection_precision w in
    commands (trace (world_of o)) = commands (trace w)
    \/ (commands (trace (world_of o)) = commands (trace w) ++ [EvSetSwitch false]
        /\ o = Ok tt (world_of o)
        /\ switch_state (world_of o) = false).
Proof.
  intros device thr fuel al p w o.
  pose proof (turn_off_when_idle_outcome device thr fuel al p w) as H.
  fold o in H.
  destruct o as [[] w' | w' | w']; simpl; [| left; exact H | left; exact H].
  destruct H as [C | [C Off]]; [left; exact C | right].
  repeat split; assumption.
Qed.

(** ** The bootstrap: [get_reliable_power_record] *)

Section Bootstrap.

Variable device : nat -> sample.
Variable interval : Q.

Lemma get_latest_power_record_ok w :
  exists r w',
    get_latest_power_record device w = Ok r w'
    /\ record_time r = datatime (device (fetched w))
    /\ fetched w' = S (fetched w).
Proof. eexists. eexists. repeat split. Qed.

Lemma sleep_cases seconds w :
  (seconds < 0 /\ sleep seconds w = Raised w)
  \/ (0 <= seconds
      /\ exists w', sleep seconds w = Ok tt w' /\ fetched w' = fetched w).
Proof.
  unfold sleep. destruct (Qltb seconds 0) eqn:E.
  - left. split; [apply Qltb_lt; exact E | reflexivity].
  - right. split; [apply Qltb_ge; exact E |].
    eexists. split; reflexivity.
Qed.

(** While every answer carries [init_time], the loop does not return. *)
Lemma wait_for_change_constant fuel init_time :
  forall r w,
    record_time r = init_time ->
    (forall k, (k < fuel)%nat -> datatime (device (fetched w + k)) = init_time) ->
    forall r' w',
      wait_for_change device fuel interval init_time r w <> Ok r' w'.
Proof.
  induction fuel as [| fuel IH]; intros r w Hr Hc r' w'; simpl;
    rewrite Hr, Z.eqb_refl; [discriminate |].
  unfold bind at 1.
  destruct (sleep_cases interval w) as [[_ E] | [_ [w1 [E F1]]]]; rewrite E;
    [discriminate |].
  unfold bind.
  destruct (get_latest_power_record_ok w1) as [r2 [w2 [E2 [T2 F2]]]].
  rewrite E2. apply IH.
  - rewrite T2, F1, <- (Nat.add_0_r (fetched w)). apply Hc. lia.
  - intros k Hk. rewrite F2, F1.
    replace (S (fetched w) + k)%nat with (fetched w + S k)%nat by lia.
    apply Hc. lia.
Qed.

(** What the loop returns, when it returns after at least one pass: the
    answer to the last request, the first one whose time is not
    [init_time]. *)
Lemma wait_for_change_returns fuel init_time :
  forall r w r' w',
    wait_for_change device fuel interval init_time r w = Ok r' w' ->
    (record_time r <> init_time /\ r' = r /\ w' = w)
    \/ (record_time r = init_time
        /\ exists n w_last,
             get_latest_power_record device w_last = Ok r' w'
             /\ fetched w_last = (fetched w + n)%nat
             /\ record_time r' <> init_time
             /\ forall k, (k < n)%nat ->
                          datatime (device (fetched w + k)) = init_time).
Proof.
  induction fuel as [| fuel IH]; intros r w r' w'; simpl;
    (destruct (record_time r =? init_time)%Z eqn:T;
     [apply Z.eqb_eq in T | apply Z.eqb_neq in T]);
    try discriminate;
    try (intros E; injection E as -> ->; left; repeat split; exact T).
  unfold bind at 1.
  destruct (sleep_cases interval w) as [[_ E] | [_ [w1 [E F1]]]]; rewrite E;
    [discriminate |].
  unfold bind.
  destruct (get_latest_power_record_ok w1) as [r2 [w2 [E2 [T2 F2]]]].
  rewrite E2. intros H. right. split; [exact T |].
  destruct (IH _ _ _ _ H) as [[N [-> ->]] | [C [n [wl [L [Fl [N A]]]]]]].
  - exists 0%nat, w1. repeat split; [exact E2 | lia | exact N | lia].
  - exists (S n), wl. repeat split; [exact L | lia | exact N |].
    intros k Hk. destruct k as [| k].
    + rewrite Nat.add_0_r, <- F1, <- T2. exact C.
    + replace (fetched w + S k)%nat with (fetched w2 + k)%nat by lia.
      apply A. lia.
Qed.

(** With enough fuel the loop returns at the first answer whose time is not
    [init_time]. *)
Lemma wait_for_change_enough n init_time :
  0 <= interval ->
  forall fuel r w,
    (n < fuel)%nat ->
    record_time r = init_time ->
    (forall k, (k < n)%nat -> datatime (device (fetched w + k)) = init_time) ->
    datatime (device (fetched w + n)) <> init_time ->
    exists w_last r' w',
      wait_for_change device fuel interval init_time r w = Ok r' w'
      /\ get_latest_power_record device w_last = Ok r' w'
      /\ fetched w_last = (fetched w + n)%nat.
Proof.
  intros Hi.
  induction n as [| n IH]; intros fuel r w Hf Hr Hc Hn;
    (destruct fuel as [| fuel]; [lia |]); simpl;
    rewrite Hr, Z.eqb_refl; unfold bind at 1;
    (destruct (sleep_cases interval w) as [[Neg _] | [_ [w1 [E F1]]]];
     [exfalso; lra |]); rewrite E; unfold bind;
    destruct (get_latest_power_record_ok w1) as [r2 [w2 [E2 [T2 F2]]]];
    rewrite E2.
  - exists w1, r2, w2.
    assert (N : record_time r2 <> init_time).
    { rewrite T2, F1, <- (Nat.add_0_r (fetched w)). exact Hn. }
    destruct fuel; simpl; apply Z.eqb_neq in N; rewrite N;
      repeat split; try exact E2; lia.
  - destruct (IH fuel r2 w2) as [wl [r' [w' [E' [L Fl]]]]].
    + lia.
    + rewrite T2, F1, <- (Nat.add_0_r (fetched w)). apply Hc. lia.
    + intros k Hk.
      replace (fetched w2 + k)%nat with (fetched w + S k)%nat by lia.
      apply Hc. lia.
    + replace (fetched w2 + n)%nat with (fetched w + S n)%nat by lia.
      exact Hn.
    + exists wl, r', w'. repeat split; [exact E' | exact L | lia].
Qed.

End Bootstrap.

(** C3: [get_reliable_power_record] and the sample times of the answers it
    receives, [sample_time k] being the time carried by the answer to its
    [k]-th request (counted from 0).
    - As long as the answers carry the sample time of the first one, the method
      does not return.
    - Whenever it returns, it returns the answer to its last request, at
      least the second; that answer carries a sample time different from the
      one of the request just before it, and every earlier answer carries the
      sample time of the first.
    - If the answer to request [n + 1] is the first to carry a new sample
      time, the method returns that answer after exactly [n + 2] requests.
    - In particular: two equal sample times, then a new one, make it return
      the third answer after exactly three requests. *)
Theorem get_reliable_power_record_change :
  forall device fuel interval w,
    let sample_time (k : nat) := datatime (device (fetched w + k)%nat) in
    ((forall k, (k <= S fuel)%nat -> sample_time k = sample_time 0%nat) ->
     forall r w', get_reliable_power_record device fuel interval w <> Ok r w')
    /\ (forall r w',
          get_reliable_power_record device fuel interval w = Ok r w' ->
          exists n w_last,
            get_latest_power_record device w_last = Ok r w'
            /\ fetched w_last = (fetched w + S n)%nat
            /\ fetched w' = (fetched w + S (S n))%nat
            /\ record_time r = sample_time (S n)
            /\ record_time r <> sample_time n
            /\ forall k, (k <= n)%nat -> sample_time k = sample_time 0%nat)
    /\ (forall n,
          0 <= interval ->
          (n <= fuel)%nat ->
          (forall k, (k <= n)%nat -> sample_time k = sample_time 0%nat) ->
          sample_time (S n) <> sample_time 0%nat ->
          exists w_last r w',
            get_reliable_power_record device fuel interval w = Ok r w'
            /\ get_latest_power_record device w_last = Ok r w'
            /\ fetched w_last = (fetched w + S n)%nat
            /\ fetched w' = (fetched w + S (S n))%nat)
    /\ (0 <= interval ->
        (1 <= fuel)%nat ->
        sample_time 1%nat = sample_time 0%nat ->
        sample_time 2%nat <> sample_time 0%nat ->
        exists w_last r w',
          get_reliable_power_record device fuel interval w = Ok r w'
          /\ get_latest_power_record device w_last = Ok r w'
          /\ fetched w_last = (fetched w + 2)%nat
          /\ fetched w' = (fetched w + 3)%nat).
Proof.
  intros device fuel interval w sample_time.
  assert (S0 : sample_time 0%nat = datatime (device (fetched w)))
    by (unfold sample_time; rewrite Nat.add_0_r; reflexivity).
  destruct (get_latest_power_record_ok device w) as [r0 [w1 [E0 [T0 F0]]]].
  destruct (get_latest_power_record_ok device w1) as [r1 [w2 [E1 [T1 F1]]]].
  assert (G : get_reliable_power_record device fuel interval w
              = wait_for_change device fuel interval (sample_time 0%nat) r1 w2).
  { unfold get_reliable_power_record, bind. rewrite E0, E1, T0, S0. reflexivity. }
  assert (S1 : record_time r1 = sample_time 1%nat).
  { rewrite T1, F0. unfold sample_time. f_equal. f_equal. lia. }
  assert (Enough : forall n,
            0 <= interval ->
            (n <= fuel)%nat ->
            (forall k, (k <= n)%nat -> sample_time k = sample_time 0%nat) ->
            sample_time (S n) <> sample_time 0%nat ->
            exists w_last r w',
              get_reliable_power_record device fuel interval w = Ok r w'
              /\ get_latest_power_record device w_last = Ok r w'
              /\ fetched w_last = (fetched w + S n)%nat
              /\ fetched w' = (fetched w + S (S n))%nat).
  { intros n Hi Hf Hc Hn. rewrite G. destruct n as [| n].
    - exists w1, r1, w2.
      assert (N : (record_time r1 =? sample_time 0%nat)%Z = false)
        by (apply Z.eqb_neq; rewrite S1; exact Hn).
      destruct fuel; simpl; rewrite N; repeat split; try exact E1; lia.
    - destruct (wait_for_change_enough device interval n (sample_time 0%nat)
                  Hi fuel r1 w2) as [wl [r' [w' [E' [L Fl]]]]].
      + lia.
      + rewrite S1. apply Hc. lia.
      + intros k Hk. rewrite F1, F0.
        replace (S (S (fetched w)) + k)%nat with (fetched w + S (S k))%nat by lia.
        apply Hc. lia.
      + rewrite F1, F0.
        replace (S (S (fetched w)) + n)%nat with (fetched w + S (S n))%nat by lia.
        exact Hn.
      + exists wl, r', w'. repeat split; [exact E' | exact L | lia |].
        destruct (get_latest_power_record_ok device wl) as [r3 [w3 [E3 [_ F3]]]].
        rewrite L in E3. injection E3 as _ <-. lia. }
  split; [| split; [| split]].
  - intros Hc r w'. rewrite G.
    apply wait_for_change_constant.
    + rewrite S1. apply Hc. lia.
    + intros k Hk. rewrite F1, F0.
      replace (S (S (fetched w)) + k)%nat with (fetched w + S (S k))%nat by lia.
      apply Hc. lia.
  - intros r w'. rewrite G. intros H.
    destruct (wait_for_change_returns device interval _ _ _ _ _ _ H)
      as [[N [-> ->]] | [C [n [wl [L [Fl [N A]]]]]]].
    + exists 0%nat, w1. repeat split; [exact E1 | lia | lia | exact S1 | |].
      * exact N.
      * intros k Hk. replace k with 0%nat by lia. reflexivity.
    + assert (All : forall k, (k <= S n)%nat -> sample_time k = sample_time 0%nat).
      { intros [| [| k]] Hk; [reflexivity | rewrite <- S1; exact C |].
        unfold sample_time at 1.
        replace (fetched w + S (S k))%nat with (fetched w2 + k)%nat by lia.
        apply A. lia. }
      destruct (get_latest_power_record_ok device wl) as [r3 [w3 [E3 [T3 F3]]]].
      rewrite L in E3. injection E3 as <- <-.
      exists (S n), wl. repeat split; [exact L | lia | lia | | | exact All].
      * rewrite T3, Fl. unfold sample_time. f_equal. f_equal. lia.
      * rewrite (All (S n) (le_n _)). exact N.
  - exact Enough.
  - intros Hi Hf H1 H2.
    destruct (Enough 1%nat Hi Hf) as [wl [r [w' [E [L [Fl F']]]]]].
    + intros [| [| k]] Hk; [reflexivity | exact H1 | lia].
    + exact H2.
    + exists wl, r, w'. repeat split; [exact E | exact L | lia | lia].
Qed.

Lemma get_reliable_power_record_change_witness :
  exists w_last r w',
    get_reliable_power_record stale_device 1 2 recorded_world = Ok r w'
    /\ get_latest_power_record stale_device w_last = Ok r w'
    /\ fetched w_last = 2%nat
    /\ fetched w' = 3%nat.
Proof.
  apply (get_reliable_power_record_change stale_device 1 2 recorded_world).
  - discriminate.
  - apply le_n.
  - reflexivity.
  - discriminate.
Defined.

(** ** The scheduler: [get_next_power_record] *)

Lemma total_seconds_usec d : total_seconds d * inject_Z usec == inject_Z d.
Proof. unfold total_seconds, usec. field. Qed.

Lemma total_seconds_nonneg d : (0 <= d)%Z -> 0 <= total_seconds d.
Proof.
  intros H. unfold total_seconds, usec.
  apply Qle_shift_div_l; [reflexivity |].
  rewrite Qmult_0_l. change 0 with (inject_Z 0). rewrite <- Zle_Qle. exact H.
Qed.

(** Sleeping for [total_seconds d] moves the clock by [d] exactly. *)
Lemma sleep_total_seconds d w :
  (0 <= d)%Z ->
  sleep (total_seconds d) w
  = Ok tt {| now := (now w + d)%Z; fetched := fetched w;
             switch_state := switch_state w;
             trace := trace w ++ [EvSleep (total_seconds d)] |}.
Proof.
  intros H. unfold sleep.
  assert (N : Qltb (total_seconds d) 0 = false)
    by (apply Qltb_ge, total_seconds_nonneg, H).
  rewrite N, (Qceiling_comp _ _ (total_seconds_usec d)), Qceiling_Z.
  reflexivity.
Qed.

Section Scheduler.

Variable cycle : Z.
Hypothesis cycle_pos : (0 < cycle)%Z.

(** The search for the execution time: it stops at the first point of the
    cycle that is not before the clock, after [k] additions of [cycle]. *)
Lemma next_exec_time_least w :
  forall (m : nat) exec_time,
    (now w - exec_time <= Z.of_nat m * cycle)%Z ->
    exists k : nat,
      (k <= m)%nat
      /\ (now w <= exec_time + Z.of_nat k * cycle)%Z
      /\ (forall j : nat, (j < k)%nat -> (exec_time + Z.of_nat j * cycle < now w)%Z)
      /\ forall fuel, (k <= fuel)%nat ->
           next_exec_time fuel cycle exec_time w
           = Ok (exec_time + Z.of_nat k * cycle)%Z w.
Proof.
  induction m as [| m IH]; intros e Hm;
    destruct (e <? now w)%Z eqn:L;
    [apply Z.ltb_lt in L; lia
    | apply Z.ltb_ge in L
    | apply Z.ltb_lt in L
    | apply Z.ltb_ge in L].
  - exists 0%nat. repeat split; [lia | lia | lia |].
    intros fuel _. apply Z.ltb_ge in L.
    replace (e + Z.of_nat 0 * cycle)%Z with e by lia.
    destruct fuel; simpl; unfold bind, datetime_now; rewrite L; reflexivity.
  - destruct (IH (e + cycle)%Z) as [k [Hk [Ge [Lt Run]]]]; [lia |].
    exists (S k). repeat split; [lia | lia | |].
    + intros [| j] Hj; [lia |].
      specialize (Lt j). lia.
    + intros [| fuel] Hf; [lia |]. apply Z.ltb_lt in L.
      cbn [next_exec_time]. unfold bind at 1, datetime_now. rewrite L.
      rewrite (Run fuel) by lia. f_equal. lia.
  - exists 0%nat. repeat split; [lia | lia | lia |].
    intros fuel _. apply Z.ltb_ge in L.
    replace (e + Z.of_nat 0 * cycle)%Z with e by lia.
    destruct fuel; simpl; unfold bind, datetime_now; rewrite L; reflexivity.
Qed.

Lemma next_exec_time_wake base_time w :
  exists k : nat,
    (now w <= base_time + Z.of_nat k * cycle)%Z
    /\ (forall j : nat, (j < k)%nat -> (base_time + Z.of_nat j * cycle < now w)%Z)
    /\ forall fuel, (k <= fuel)%nat ->
         next_exec_time fuel cycle base_time w
         = Ok (base_time + Z.of_nat k * cycle)%Z w.
Proof.
  destruct (next_exec_time_least w (Z.to_nat (now w - base_time)) base_time)
    as [k [_ H]]; [nia | exists k; exact H].
Qed.

End Scheduler.

(** ** The detection loop *)

Lemma too_early_dec latency :
  Qltb 9 latency && Qltb latency (25 # 2) = true <-> too_early latency.
Proof. unfold too_early. rewrite andb_true_iff, !Qltb_lt. tauto. Qed.

Lemma acceptable_dec latency :
  Qltb 0 latency && Qltb latency (5 # 2) = true <-> acceptable latency.
Proof. unfold acceptable. rewrite andb_true_iff, !Qltb_lt. tauto. Qed.

Lemma too_early_not_acceptable latency : too_early latency -> ~ acceptable latency.
Proof. unfold too_early, acceptable. intros [A B] [C D]. lra. Qed.

Lemma retune_too_early precision_is_low latency st :
  too_early latency ->
  retune precision_is_low latency st
  = (offset st + increment st, py_max2 (offset st) (lower_bound st), increment st).
Proof.
  intros H. apply too_early_dec in H. unfold retune. rewrite H. reflexivity.
Qed.

Lemma retune_acceptable precision_is_low latency st :
  acceptable latency ->
  retune precision_is_low latency st
  = let increment' :=
      if precision_is_low && Qeq_bool (offset st - increment st) (lower_bound st)
      then increment st / 2 else increment st in
    (offset st - increment', lower_bound st, increment').
Proof.
  intros H. unfold retune.
  destruct (Qltb 9 latency && Qltb latency (25 # 2)) eqn:E.
  - apply too_early_dec in E. destruct (too_early_not_acceptable _ E H).
  - apply acceptable_dec in H. rewrite H. reflexivity.
Qed.

Lemma retune_anomalous precision_is_low latency st :
  anomalous latency ->
  retune precision_is_low latency st = (0, lower_bound st, increment st).
Proof.
  intros [A B]. unfold retune.
  destruct (Qltb 9 latency && Qltb latency (25 # 2)) eqn:E;
    [apply too_early_dec in E; contradiction |].
  destruct (Qltb 0 latency && Qltb latency (5 # 2)) eqn:F;
    [apply acceptable_dec in F; contradiction |].
  reflexivity.
Qed.

Lemma band_cases latency :
  too_early latency \/ acceptable latency \/ anomalous latency.
Proof.
  destruct (Qltb 9 latency && Qltb latency (25 # 2)) eqn:E;
    [left; apply too_early_dec; exact E |].
  destruct (Qltb 0 latency && Qltb latency (5 # 2)) eqn:F;
    [right; left; apply acceptable_dec; exact F |].
  right; right. split; intros H;
    [apply too_early_dec in H | apply acceptable_dec in H]; congruence.
Qed.

Lemma py_max2_max a b : py_max2 a b == Qmax b a.
Proof.
  unfold py_max2. destruct (Qltb a b) eqn:E.
  - apply Qltb_lt in E. symmetry. apply Q.max_l. lra.
  - apply Qltb_ge in E. symmetry. apply Q.max_r. exact E.
Qed.

Lemma py_max2_ge_r a b : b <= py_max2 a b.
Proof.
  unfold py_max2. destruct (Qltb a b) eqn:E; [lra |].
  apply Qltb_ge in E. exact E.
Qed.

(** A pass of the loop is a request for the next record, the gate, and the
    adjustment of the variables. *)
Lemma iteration_inv device idle_threshold inner allowed_latency precision_is_low
    st w st' w' :
  iteration device idle_threshold inner allowed_latency precision_is_low st w
  = Ok st' w' ->
  exists r w1 now_on,
    get_next_power_record device inner (base_time st) 10 w = Ok r w1
    /\ turn_off_if_idle idle_threshold r allowed_latency w1 = Ok now_on w'
    /\ st' = adjust precision_is_low now_on r st.
Proof.
  unfold iteration, bind at 1.
  destruct (get_next_power_record device inner (base_time st) 10 w)
    as [r w1 | w1 | w1]; try discriminate.
  unfold bind.
  destruct (turn_off_if_idle idle_threshold r allowed_latency w1)
    as [on w2 | w2 | w2] eqn:G; try discriminate.
  intros E. injection E as <- <-.
  exists r, w1, on. repeat split; assumption.
Qed.

Lemma iteration_fetched device idle_threshold inner allowed_latency
    precision_is_low st w r w1 :
  get_next_power_record device inner (base_time st) 10 w = Ok r w1 ->
  exists now_on w',
    turn_off_if_idle idle_threshold r allowed_latency w1 = Ok now_on w'
    /\ iteration device idle_threshold inner allowed_latency precision_is_low st w
       = Ok (adjust precision_is_low now_on r st) w'.
Proof.
  intros G. unfold iteration, bind at 1. rewrite G. unfold bind.
  destruct (turn_off_if_idle_cases idle_threshold r allowed_latency w1)
    as [[_ E] | [_ E]]; rewrite E; eexists; eexists; split; reflexivity.
Qed.

Lemma main_loop_pass device idle_threshold fuel inner allowed_latency
    precision_is_low st w st' w' :
  switch_is_on st = true ->
  iteration device idle_threshold inner allowed_latency precision_is_low st w
  = Ok st' w' ->
  main_loop device idle_threshold (S fuel) inner allowed_latency precision_is_low st w
  = main_loop device idle_threshold fuel inner allowed_latency precision_is_low st' w'.
Proof.
  intros On E. cbn [main_loop]. rewrite On. unfold bind at 1. rewrite E.
  reflexivity.
Qed.

(** With the cycle of ten seconds the request for the next record returns,
    given fuel for the search of the execution time; so does the pass. *)
Lemma get_next_power_record_returns device base_time w :
  exists k : nat,
    forall inner, (k <= inner)%nat ->
      exists r w1, get_next_power_record device inner base_time 10 w = Ok r w1.
Proof.
  assert (Pos : (0 < timedelta 10)%Z) by reflexivity.
  destruct (next_exec_time_wake (timedelta 10) Pos base_time w)
    as [k [Ge [_ Run]]].
  exists k. intros inner Hk.
  unfold get_next_power_record, bind at 1. rewrite (Run inner Hk).
  unfold bind at 1, datetime_now. unfold bind.
  rewrite sleep_total_seconds by lia.
  eexists. eexists. reflexivity.
Qed.

Lemma iteration_returns device idle_threshold allowed_latency precision_is_low
    st w :
  exists k : nat,
    forall inner, (k <= inner)%nat ->
      exists st' w',
        iteration device idle_threshold inner allowed_latency precision_is_low st w
        = Ok st' w'.
Proof.
  destruct (get_next_power_record_returns device (base_time st) w) as [k H].
  exists k. intros inner Hk. destruct (H inner Hk) as [r [w1 G]].
  destruct (iteration_fetched device idle_threshold inner allowed_latency
              precision_is_low st w r w1 G) as [on [w' [_ E]]].
  eexists. eexists. exact E.
Qed.

Lemma timedelta_0 : timedelta 0 = 0%Z.
Proof. reflexivity. Qed.

Lemma anomalous_pass device idle_threshold inner allowed_latency precision_is_low
    st w r w1 :
  get_next_power_record device inner (base_time st) 10 w = Ok r w1 ->
  anomalous (latency r) ->
  exists st' w',
    iteration device idle_threshold inner allowed_latency precision_is_low st w
    = Ok st' w'
    /\ turn_off_if_idle idle_threshold r allowed_latency w1 = Ok (switch_is_on st') w'
    /\ offset st' = 0
    /\ lower_bound st' = lower_bound st
    /\ increment st' = increment st
    /\ base_time st' = record_time r.
Proof.
  intros G A.
  destruct (iteration_fetched device idle_threshold inner allowed_latency
              precision_is_low st w r w1 G) as [on [w' [T E]]].
  exists (adjust precision_is_low on r st), w'.
  split; [exact E |]. split; [exact T |].
  unfold adjust. rewrite (retune_anomalous precision_is_low (latency r) st A).
  simpl. repeat split.
  unfold nudge_timestamp. rewrite timedelta_0. apply Z.add_0_r.
Qed.

(** C7: a pass whose record has a latency neither in (9, 12.5) nor in
    (0, 2.5) sets [offset] to 0 and raises nothing: the pass ends normally,
    [lower_bound] and [increment] are kept, the cycle is anchored at the time
    of the record, and the loop goes on with these variables. Unless the gate
    has just turned the switch off, which a tolerance of at most 2.5 s
    excludes in this band, another pass follows. *)
Theorem anomalous_pass_resets_offset :
  forall device idle_threshold inner allowed_latency precision_is_low st w r w1,
    get_next_power_record device inner (base_time st) 10 w = Ok r w1 ->
    ~ (9 < latency r /\ latency r < 25 # 2) ->
    ~ (0 < latency r /\ latency r < 5 # 2) ->
    exists st' w',
      iteration device idle_threshold inner allowed_latency precision_is_low st w
      = Ok st' w'
      /\ offset st' = 0
      /\ lower_bound st' = lower_bound st
      /\ increment st' = increment st
      /\ base_time st' = record_time r
      /\ (switch_is_on st = true ->
          forall fuel,
            main_loop device idle_threshold (S fuel) inner allowed_latency
                      precision_is_low st w
            = main_loop device idle_threshold fuel inner allowed_latency
                        precision_is_low st' w')
      /\ (allowed_latency <= 5 # 2 -> switch_is_on st' = true /\ w' = w1).
Proof.
  intros device thr inner al pil st w r w1 G A1 A2.
  destruct (anomalous_pass device thr inner al pil st w r w1 G (conj A1 A2))
    as [st' [w' [E [T [O [L [I B]]]]]]].
  exists st', w'. repeat split; try assumption.
  - intros On fuel. apply main_loop_pass; assumption.
  - destruct (turn_off_if_idle_cases thr r al w1) as [[[_ [P Lt]] _] | [_ F]].
    + exfalso. apply A2. split; [exact P | lra].
    + rewrite F in T. injection T as <- _. reflexivity.
  - destruct (turn_off_if_idle_cases thr r al w1) as [[[_ [P Lt]] _] | [_ F]].
    + exfalso. apply A2. split; [exact P | lra].
    + rewrite F in T. injection T as _ <-. reflexivity.
Qed.

Lemma anomalous_pass_resets_offset_witness :
  exists st' w',
    iteration slow_device 5 3 1 true first_state after_first_pass = Ok st' w'
    /\ offset st' = 0
    /\ lower_bound st' = lower_bound first_state
    /\ increment st' = increment first_state
    /\ base_time st' = record_time slow_record
    /\ (switch_is_on first_state = true ->
        forall fuel,
          main_loop slow_device 5 (S fuel) 3 1 true first_state after_first_pass
          = main_loop slow_device 5 fuel 3 1 true st' w')
    /\ (1 <= 5 # 2 -> switch_is_on st' = true /\ w' = after_slow_request).
Proof.
  apply (anomalous_pass_resets_offset slow_device 5 3 1 true first_state
           after_first_pass slow_record after_slow_request).
  - vm_compute. reflexivity.
  - vm_compute. intros [H _]. discriminate H.
  - vm_compute. intros [_ H]. discriminate H.
Defined.

(** *** The variables along a run *)

Lemma retune_lower_bound precision_is_low latency st :
  lower_bound st <= snd (fst (retune precision_is_low latency st)).
Proof.
  destruct (band_cases latency) as [H | [H | H]].
  - rewrite (retune_too_early _ _ _ H). simpl. apply py_max2_ge_r.
  - rewrite (retune_acceptable _ _ _ H). simpl. lra.
  - rewrite (retune_anomalous _ _ _ H). simpl. lra.
Qed.

Lemma retune_increment precision_is_low latency st :
  snd (retune precision_is_low latency st) = increment st
  \/ snd (retune precision_is_low latency st) = increment st / 2.
Proof.
  destruct (band_cases latency) as [H | [H | H]].
  - rewrite (retune_too_early _ _ _ H). left. reflexivity.
  - rewrite (retune_acceptable _ _ _ H). simpl.
    destruct (precision_is_low
              && Qeq_bool (offset st - increment st) (lower_bound st));
      [right | left]; reflexivity.
  - rewrite (retune_anomalous _ _ _ H). left. reflexivity.
Qed.

(** The increment is halved only in the acceptable band, with the flag set
    and [offset - increment == lower_bound]. *)
Lemma retune_halves precision_is_low latency st :
  snd (retune precision_is_low latency st) = increment st / 2 ->
  ~ increment st == 0 ->
  acceptable latency
  /\ precision_is_low = true
  /\ offset st - increment st == lower_bound st.
Proof.
  intros E NZ.
  assert (D : ~ increment st = increment st / 2).
  { intros C. apply NZ.
    assert (HC : increment st == increment st / 2) by (rewrite <- C; reflexivity).
    assert (H2 : increment st * 2 == increment st) by (rewrite HC at 1; field).
    lra. }
  destruct (band_cases latency) as [H | [H | H]].
  - rewrite (retune_too_early _ _ _ H) in E. simpl in E. contradiction.
  - rewrite (retune_acceptable _ _ _ H) in E. simpl in E.
    destruct precision_is_low; simpl in E; [| contradiction].
    destruct (Qeq_bool (offset st - increment st) (lower_bound st)) eqn:B;
      [| contradiction].
    repeat split; [apply H | apply H | apply Qeq_bool_iff; exact B].
  - rewrite (retune_anomalous _ _ _ H) in E. simpl in E. contradiction.
Qed.

Section Run.

Variable device : nat -> sample.
Variable idle_threshold : Q.
Variable allowed_latency : Q.
Variable precision_is_low : bool.

Let step := iter_step device idle_threshold allowed_latency precision_is_low.
Let steps := iter_steps device idle_threshold allowed_latency precision_is_low.

Lemma iter_step_adjust st st' :
  step st st' -> exists now_on r, st' = adjust precision_is_low now_on r st.
Proof.
  intros [_ [inner [w [w' E]]]].
  destruct (iteration_inv _ _ _ _ _ _ _ _ _ E) as [r [w1 [on [_ [_ A]]]]].
  exists on, r. exact A.
Qed.

Lemma iter_step_lower_bound st st' :
  step st st' -> lower_bound st <= lower_bound st'.
Proof.
  intros H. destruct (iter_step_adjust _ _ H) as [on [r ->]].
  apply retune_lower_bound.
Qed.

Lemma iter_steps_lower_bound st st' :
  steps st st' -> lower_bound st <= lower_bound st'.
Proof.
  induction 1 as [st | st mid st' H _ IH]; [lra |].
  apply iter_step_lower_bound in H. lra.
Qed.

Lemma iter_step_increment st st' :
  step st st' ->
  increment st' = increment st \/ increment st' = increment st / 2.
Proof.
  intros H. destruct (iter_step_adjust _ _ H) as [on [r ->]].
  apply retune_increment.
Qed.

(** A pass halves the increment only with the flag set and
    [offset - increment == lower_bound]; the flag is the one computed before
    the loop. *)
Lemma iter_step_halves st st' :
  step st st' ->
  0 < increment st ->
  increment st' = increment st / 2 ->
  precision_is_low = true /\ offset st - increment st == lower_bound st.
Proof.
  intros H P E. destruct (iter_step_adjust _ _ H) as [on [r ->]].
  simpl in E. apply retune_halves in E; [tauto | lra].
Qed.

Lemma iter_steps_halved st st' :
  steps st st' -> exists n, increment st' = halved n (increment st).
Proof.
  induction 1 as [st | st mid st' H _ [n IH]]; [exists 0%nat; reflexivity |].
  destruct (iter_step_increment _ _ H) as [E | E]; rewrite E in IH.
  - exists n. exact IH.
  - exists (S n). rewrite IH. unfold halved. symmetry.
    exact (Nat.iter_succ_r n Q (fun x : Q => x / 2) (increment st)).
Qed.

Lemma halved_bounds n q : 0 < q -> 0 < halved n q /\ halved n q <= q.
Proof.
  intros P. induction n as [| n [A B]]; simpl; [lra |].
  change (Nat.iter n (fun x => x / 2) q) with (halved n q).
  split.
  - apply Qlt_shift_div_l; lra.
  - apply Qle_shift_div_r; lra.
Qed.

Lemma passes_steps n inner st w st' w' :
  passes device idle_threshold n inner allowed_latency precision_is_low st w
  = Ok st' w' ->
  steps st st'.
Proof.
  revert st w. induction n as [| n IH]; intros st w; simpl.
  - intros E. injection E as <- _. apply rt1n_refl.
  - destruct (switch_is_on st) eqn:On;
      [| intros E; injection E as <- _; apply rt1n_refl].
    unfold bind.
    destruct (iteration device idle_threshold inner allowed_latency
                precision_is_low st w) as [st1 w1 | w1 | w1] eqn:It;
      try discriminate.
    intros E. apply rt1n_trans with st1; [| apply (IH _ _ E)].
    split; [exact On |]. exists inner, w, w1. exact It.
Qed.

(** [main_loop] is its passes, followed by the test of the loop. *)
Lemma main_loop_passes fuel inner st w :
  main_loop device idle_threshold fuel inner allowed_latency precision_is_low st w
  = match passes device idle_threshold fuel inner allowed_latency
                 precision_is_low st w with
    | Ok st' w' => if switch_is_on st' then OutOfFuel w' else Ok st' w'
    | Raised w' => Raised w'
    | OutOfFuel w' => OutOfFuel w'
    end.
Proof.
  revert st w. induction fuel as [| fuel IH]; intros st w; simpl.
  - destruct (switch_is_on st); reflexivity.
  - destruct (switch_is_on st) eqn:On; [| simpl; rewrite On; reflexivity].
    unfold bind.
    destruct (iteration device idle_threshold inner allowed_latency
                precision_is_low st w) as [st1 w1 | w1 | w1]; try reflexivity.
    apply IH.
Qed.

End Run.

(** C5: along the passes of a run [lower_bound] never decreases, whatever the
    bands of latency met; once above the sentinel -1 it stays above it. *)
Theorem lower_bound_never_decreases :
  forall device idle_threshold allowed_latency precision_is_low st st',
    iter_steps device idle_threshold allowed_latency precision_is_low st st' ->
    -1 < lower_bound st ->
    lower_bound st <= lower_bound st' /\ -1 < lower_bound st'.
Proof.
  intros device thr al pil st st' H S.
  apply iter_steps_lower_bound in H. split; lra.
Qed.

Lemma recorded_second_pass :
  iter_step recorded_device 5 1 true first_state second_state.
Proof.
  split; [reflexivity |].
  exists 3%nat, after_first_pass, after_second_pass.
  vm_compute. reflexivity.
Defined.

Lemma recorded_first_pass :
  iter_step recorded_device 5 1 true recorded_start first_state.
Proof.
  split; [reflexivity |].
  exists 3%nat, after_bootstrap, after_first_pass.
  vm_compute. reflexivity.
Defined.

Lemma lower_bound_never_decreases_witness :
  lower_bound first_state <= lower_bound second_state
  /\ -1 < lower_bound second_state.
Proof.
  apply (lower_bound_never_decreases recorded_device 5 1 true
           first_state second_state).
  - apply rt1n_trans with second_state;
      [exact recorded_second_pass | apply rt1n_refl].
  - reflexivity.
Defined.

(** C9: [increment] starts at 1/4 and a pass either keeps it or halves it;
    so along a run it is positive and never grows: between any two points of
    a run it has been halved some number of times. A pass in the anomalous
    band sets [offset] to 0 and keeps [increment] and [lower_bound]. *)
Theorem increment_never_grows :
  forall device idle_threshold allowed_latency precision_is_low now_on r0 st st',
    iter_steps device idle_threshold allowed_latency precision_is_low
               (initial_state now_on r0) st ->
    iter_steps device idle_threshold allowed_latency precision_is_low st st' ->
    increment (initial_state now_on r0) = 1 / 4
    /\ (exists n, increment st' = halved n (increment st))
    /\ 0 < increment st'
    /\ increment st' <= increment st
    /\ (forall st'',
          iter_step device idle_threshold allowed_latency precision_is_low st' st'' ->
          increment st'' = increment st' \/ increment st'' = increment st' / 2)
    /\ (forall inner w r w1,
          get_next_power_record device inner (base_time st') 10 w = Ok r w1 ->
          anomalous (latency r) ->
          exists st'' w',
            iteration device idle_threshold inner allowed_latency
                      precision_is_low st' w = Ok st'' w'
            /\ offset st'' = 0
            /\ increment st'' = increment st'
            /\ lower_bound st'' = lower_bound st').
Proof.
  intros device thr al pil on r0 st st' H0 H.
  destruct (iter_steps_halved _ _ _ _ _ _ H0) as [m Em].
  destruct (iter_steps_halved _ _ _ _ _ _ H) as [n En].
  assert (P0 : 0 < increment (initial_state on r0)) by reflexivity.
  destruct (halved_bounds m _ P0) as [Pm _]. rewrite <- Em in Pm.
  destruct (halved_bounds n _ Pm) as [Pn Ln]. rewrite <- En in Pn, Ln.
  repeat split; try assumption.
  - exists n. exact En.
  - intros st'' S. exact (iter_step_increment _ _ _ _ _ _ S).
  - intros inner w r w1 G A.
    destruct (anomalous_pass device thr inner al pil st' w r w1 G A)
      as [st'' [w' [E [_ [O [L [I _]]]]]]].
    exists st'', w'. repeat split; assumption.
Qed.

Lemma increment_never_grows_witness :
  increment (initial_state true bootstrap_record) = 1 / 4
  /\ (exists n, increment second_state = halved n (increment first_state))
  /\ 0 < increment second_state
  /\ increment second_state <= increment first_state
  /\ (forall st'',
        iter_step recorded_device 5 1 true second_state st'' ->
        increment st'' = increment second_state
        \/ increment st'' = increment second_state / 2)
  /\ (forall inner w r w1,
        get_next_power_record recorded_device inner (base_time second_state) 10 w
        = Ok r w1 ->
        anomalous (latency r) ->
        exists st'' w',
          iteration recorded_device 5 inner 1 true second_state w = Ok st'' w'
          /\ offset st'' = 0
          /\ increment st'' = increment second_state
          /\ lower_bound st'' = lower_bound second_state).
Proof.
  apply (increment_never_grows recorded_device 5 1 true true bootstrap_record
           first_state second_state).
  - apply rt1n_trans with first_state;
      [exact recorded_first_pass | apply rt1n_refl].
  - apply rt1n_trans with second_state;
      [exact recorded_second_pass | apply rt1n_refl].
Defined.

(** C2, on the code: [precision_is_low] is computed once, before the loop,
    from the initial increment 1/4, and never again. With
    [cycle_detection_precision = 1] (floor 1/10) and a device that is busy,
    the run comes, after three passes, to an increment of 1/16, below the
    floor, and the fourth pass halves it again, to 1/32. *)
Theorem increment_halved_below_floor :
  let precision_is_low := initial_precision_is_low 1 in
  get_reliable_power_record busy_device 1 2 (log EvGetState recorded_world)
  = Ok bootstrap_record bootstrap_world
  /\ turn_off_if_idle 5 bootstrap_record (1 # 2) bootstrap_world
     = Ok true bootstrap_world
  /\ exists st3 w3 st4 w4,
       passes busy_device 5 3 3 1 precision_is_low
              (initial_state true bootstrap_record) bootstrap_world
       = Ok st3 w3
       /\ switch_is_on st3 = true
       /\ iteration busy_device 5 3 1 precision_is_low st3 w3 = Ok st4 w4
       /\ increment st3 == 1 # 16
       /\ increment st3 < 10 ^ (-1)
       /\ offset st3 - increment st3 == lower_bound st3
       /\ increment st4 == 1 # 32
       /\ increment st4 == increment st3 / 2.
Proof.
  cbv zeta. split; [vm_compute; reflexivity |].
  split; [vm_compute; reflexivity |].
  eexists. eexists. eexists. eexists.
  split; [vm_compute; reflexivity |].
  split; [reflexivity |].
  split; [vm_compute; reflexivity |].
  repeat split.
Qed.

(** * Further properties of the code *)

(** ** [print_timestamp] *)

Module TimestampFacts.

Import Ascii String Timestamp.
Local Open Scope Z_scope.

Lemma strftime_HMS_shape t :
  exists a b c d e f,
    strftime_HMS t
    = String a (String b (String ":" (String c (String d (String ":"
        (String e (String f EmptyString))))))).
Proof. repeat eexists. Qed.

Lemma strftime_HMSf_shape t :
  exists a b c d e f g h i j k l,
    strftime_HMSf t
    = String a (String b (String ":" (String c (String d (String ":"
        (String e (String f (String "." (String g (String h (String i
          (String j (String k (String l EmptyString)))))))))))))).
Proof. repeat eexists. Qed.

Lemma in_range_cases d :
  0 < d <= 6 -> d = 1 \/ d = 2 \/ d = 3 \/ d = 4 \/ d = 5 \/ d = 6.
Proof. lia. Qed.

Lemma print_timestamp_cases t d :
  (d = 0 /\ print_timestamp t (Some d) = Some (strftime_HMS t))
  \/ (0 < d <= 6
      /\ print_timestamp t (Some d) = Some (slice_to (d - 6) (strftime_HMSf t)))
  \/ ((d < 0 \/ 6 < d) /\ print_timestamp t (Some d) = None).
Proof.
  unfold print_timestamp.
  destruct (d =? 0) eqn:E0; [left; split; [apply Z.eqb_eq; exact E0 | reflexivity] |].
  apply Z.eqb_neq in E0. right.
  destruct (0 <? d) eqn:E1; destruct (d <=? 6) eqn:E2; simpl;
    try (apply Z.ltb_lt in E1); try (apply Z.ltb_ge in E1);
    try (apply Z.leb_le in E2); try (apply Z.leb_gt in E2);
    [left | right | right | right]; split; try reflexivity; lia.
Qed.

(** [print_timestamp] raises exactly when [dig] is an integer below 0 or
    above 6: then no branch of the [try] assigns the string it returns. With
    [dig=None], and with every integer from 0 to 6, it returns a string. *)
Theorem print_timestamp_raises :
  forall t dig,
    print_timestamp t dig = None
    <-> exists d, dig = Some d /\ (d < 0 \/ 6 < d).
Proof.
  intros t [d |]; split.
  - intros H. exists d. split; [reflexivity |].
    destruct (print_timestamp_cases t d) as [[_ E] | [[_ E] | [R _]]];
      [rewrite E in H; discriminate H | rewrite E in H; discriminate H | exact R].
  - intros [d' [E R]]. injection E as <-.
    destruct (print_timestamp_cases t d) as [[Z0 _] | [[I _] | [_ E]]];
      [lia | lia | exact E].
  - discriminate.
  - intros [d [E _]]. discriminate E.
Qed.

Lemma prefix_append s u : prefix s (s ++ u) = true.
Proof.
  induction s as [| c s IH]; simpl; [destruct u; reflexivity |].
  destruct (ascii_dec c c) as [_ | N]; [exact IH | destruct (N eq_refl)].
Qed.

Lemma prefix_substring n : forall s, prefix (substring 0 n s) s = true.
Proof.
  induction n as [| n IH]; intros [| c s]; simpl; try reflexivity.
  destruct (ascii_dec c c) as [_ | N]; [apply IH | destruct (N eq_refl)].
Qed.

(** What [print_timestamp] returns, by [dig]: the 15 characters of
    HH:MM:SS.ffffff for [None]; the 8 characters of HH:MM:SS for 0; the first
    [9 + dig] characters of the full rendering for 1 to 5; and, the slice
    being [[:0]], the empty string for 6. Every result is a prefix of the
    full rendering. *)
Theorem print_timestamp_length :
  forall t,
    (exists s, print_timestamp t None = Some s /\ length s = 15%nat)
    /\ forall d s,
         print_timestamp t (Some d) = Some s ->
         prefix s (strftime_HMSf t) = true
         /\ (d = 0 -> length s = 8%nat)
         /\ (0 < d < 6 -> length s = (9 + Z.to_nat d)%nat)
         /\ (d = 6 -> s = EmptyString).
Proof.
  intros t.
  destruct (strftime_HMSf_shape t)
    as [a [b [c [d0 [e [f [g [h [i [j [k [l F]]]]]]]]]]]].
  split.
  - exists (strftime_HMSf t). split; [reflexivity |]. rewrite F. reflexivity.
  - intros d s H.
    destruct (print_timestamp_cases t d) as [[Z0 E] | [[I E] | [_ E]]];
      rewrite E in H; [| | discriminate H]; injection H as <-.
    + subst d. split; [unfold strftime_HMSf; apply prefix_append |].
      repeat split; lia.
    + split; [apply prefix_substring |]. rewrite F.
      destruct (in_range_cases d I) as [D | [D | [D | [D | [D | D]]]]]; subst d;
        repeat split; try lia; intros _; vm_compute; reflexivity.
Qed.

Lemma print_timestamp_length_witness :
  prefix (strftime_HMS 58345001250) (strftime_HMSf 58345001250) = true
  /\ (0 = 0 -> length (strftime_HMS 58345001250) = 8%nat)
  /\ (0 < 0 < 6 -> length (strftime_HMS 58345001250) = (9 + Z.to_nat 0)%nat)
  /\ (0 = 6 -> strftime_HMS 58345001250 = EmptyString).
Proof.
  apply (print_timestamp_length 58345001250).
  reflexivity.
Defined.

End TimestampFacts.

(** ** The status updates inside [turn_off_when_idle] *)

Lemma power_update_in_range cycle_detection_precision power_record :
  (0 <= cycle_detection_precision <= 6)%Z ->
  power_update cycle_detection_precision power_record = ret tt.
Proof.
  intros R. unfold power_update.
  destruct (TimestampFacts.print_timestamp_cases (record_time power_record) 0)
    as [[_ E] | [[I _] | [I _]]]; [rewrite E | lia | lia].
  destruct (TimestampFacts.print_timestamp_cases (request_time power_record)
              cycle_detection_precision)
    as [[_ F] | [[_ F] | [I _]]]; [rewrite F | rewrite F | lia]; reflexivity.
Qed.

Lemma power_update_out_of_range cycle_detection_precision power_record :
  (cycle_detection_precision < 0 \/ 6 < cycle_detection_precision)%Z ->
  power_update cycle_detection_precision power_record = fun w => Raised w.
Proof.
  intros R. unfold power_update.
  destruct (TimestampFacts.print_timestamp_cases (record_time power_record) 0)
    as [[_ E] | [[I _] | [I _]]]; [rewrite E | lia | lia].
  destruct (TimestampFacts.print_timestamp_cases (request_time power_record)
              cycle_detection_precision)
    as [[I _] | [[I _] | [_ F]]]; [lia | lia | rewrite F]; reflexivity.
Qed.

Lemma main_loop_with_update_in_range device idle_threshold fuel inner
    allowed_latency cycle_detection_precision precision_is_low :
  (0 <= cycle_detection_precision <= 6)%Z ->
  forall st w,
    main_loop_with_update device idle_threshold fuel inner allowed_latency
      cycle_detection_precision precision_is_low st w
    = main_loop device idle_threshold fuel inner allowed_latency
        precision_is_low st w.
Proof.
  intros R. induction fuel as [| fuel IH]; intros st w; simpl;
    destruct (switch_is_on st); try reflexivity.
  unfold iteration_with_update, iteration, bind.
  destruct (get_next_power_record device inner (base_time st) 10 w)
    as [r w1 | w1 | w1]; try reflexivity.
  rewrite (power_update_in_range _ r R). simpl.
  destruct (turn_off_if_idle idle_threshold r allowed_latency w1)
    as [on w2 | w2 | w2]; try reflexivity.
  simpl. apply IH.
Qed.

Lemma with_update_plain device idle_threshold fuel allowed_latency
    cycle_detection_precision w :
  (0 <= cycle_detection_precision <= 6)%Z ->
  turn_off_when_idle_with_update device idle_threshold fuel allowed_latency
    cycle_detection_precision w
  = turn_off_when_idle device idle_threshold fuel allowed_latency
      cycle_detection_precision w.
Proof.
  intros R.
  unfold turn_off_when_idle_with_update, turn_off_when_idle, bind,
    get_switch_state.
  destruct (switch_state w); simpl; [| reflexivity].
  destruct (get_reliable_power_record device fuel 2 (log EvGetState w))
    as [r w1 | w1 | w1]; try reflexivity.
  rewrite (power_update_in_range _ r R). simpl.
  destruct (turn_off_if_idle idle_threshold r (1 # 2) w1) as [on w2 | w2 | w2];
    try reflexivity.
  rewrite (main_loop_with_update_in_range device idle_threshold fuel fuel
             allowed_latency cycle_detection_precision _ R).
  reflexivity.
Qed.

Lemma with_update_raises device idle_threshold fuel allowed_latency
    cycle_detection_precision w :
  (cycle_detection_precision < 0 \/ 6 < cycle_detection_precision)%Z ->
  switch_state w = true ->
  turn_off_when_idle_with_update device idle_threshold fuel allowed_latency
    cycle_detection_precision w
  = match get_reliable_power_record device fuel 2 (log EvGetState w) with
    | Ok _ w1 => Raised w1
    | Raised w1 => Raised w1
    | OutOfFuel w1 => OutOfFuel w1
    end.
Proof.
  intros R On.
  unfold turn_off_when_idle_with_update, bind at 1, get_switch_state.
  rewrite On. simpl. unfold bind at 1.
  destruct (get_reliable_power_record device fuel 2 (log EvGetState w))
    as [r w1 | w1 | w1]; try reflexivity.
  unfold bind at 1. rewrite (power_update_out_of_range _ r R). reflexivity.
Qed.

(** Whatever [cycle_detection_precision], a normal return of the method
    with its status updates is a normal return of the method without them. *)
Lemma with_update_returns device idle_threshold fuel allowed_latency
    cycle_detection_precision w u w' :
  turn_off_when_idle_with_update device idle_threshold fuel allowed_latency
    cycle_detection_precision w = Ok u w' ->
  switch_state w = true ->
  (0 <= cycle_detection_precision <= 6)%Z
  /\ turn_off_when_idle device idle_threshold fuel allowed_latency
       cycle_detection_precision w = Ok u w'.
Proof.
  intros H On.
  destruct (Z.lt_ge_cases cycle_detection_precision 0) as [L | L];
    [| destruct (Z.lt_ge_cases 6 cycle_detection_precision) as [U | U]].
  - rewrite (with_update_raises _ _ _ _ _ _ (or_introl L) On) in H.
    destruct (get_reliable_power_record device fuel 2 (log EvGetState w));
      discriminate H.
  - rewrite (with_update_raises _ _ _ _ _ _ (or_intror U) On) in H.
    destruct (get_reliable_power_record device fuel 2 (log EvGetState w));
      discriminate H.
  - split; [lia |]. rewrite <- with_update_plain by lia. exact H.
Qed.

(** With [cycle_detection_precision] from 0 to 6 the status updates raise
    nothing: [turn_off_when_idle] with its calls of [_power_update] does, in
    every world and for every device, what it does without them. *)
Theorem turn_off_when_idle_with_update_in_range :
  forall device idle_threshold fuel allowed_latency cycle_detection_precision w,
    (0 <= cycle_detection_precision <= 6)%Z ->
    turn_off_when_idle_with_update device idle_threshold fuel allowed_latency
      cycle_detection_precision w
    = turn_off_when_idle device idle_threshold fuel allowed_latency
        cycle_detection_precision w.
Proof.
  intros device thr fuel al p w R. apply with_update_plain. exact R.
Qed.

Lemma turn_off_when_idle_with_update_in_range_witness :
  turn_off_when_idle_with_update recorded_device 5 3 1 3 recorded_world
  = turn_off_when_idle recorded_device 5 3 1 3 recorded_world.
Proof.
  apply (turn_off_when_idle_with_update_in_range recorded_device 5 3 1 3
           recorded_world).
  split; discriminate.
Defined.

(** With an integer [cycle_detection_precision] below 0 or above 6, and the
    switch on, [turn_off_when_idle] never gets to the gate: the first status
    update, right after the bootstrap, raises. Whatever the device answers,
    the method does not return normally and issues no command; once the
    bootstrap has returned, it raises in the world the bootstrap left. *)
Theorem turn_off_when_idle_with_update_out_of_range :
  forall device idle_threshold fuel allowed_latency cycle_detection_precision w,
    (cycle_detection_precision < 0 \/ 6 < cycle_detection_precision)%Z ->
    switch_state w = true ->
    (forall u w',
        turn_off_when_idle_with_update device idle_threshold fuel
          allowed_latency cycle_detection_precision w <> Ok u w')
    /\ commands (trace (world_of
          (turn_off_when_idle_with_update device idle_threshold fuel
             allowed_latency cycle_detection_precision w)))
       = commands (trace w)
    /\ (forall r w1,
          get_reliable_power_record device fuel 2 (log EvGetState w) = Ok r w1 ->
          turn_off_when_idle_with_update device idle_threshold fuel
            allowed_latency cycle_detection_precision w = Raised w1).
Proof.
  intros device thr fuel al p w R On.
  assert (G : commands (trace (log EvGetState w)) = commands (trace w)).
  { simpl. rewrite commands_snoc. simpl. apply app_nil_r. }
  pose proof (quiet_get_reliable_power_record device fuel 2 (log EvGetState w)) as B.
  rewrite G in B.
  rewrite (with_update_raises device thr fuel al p w R On).
  destruct (get_reliable_power_record device fuel 2 (log EvGetState w))
    as [r w1 | w1 | w1]; simpl in B;
    (split; [discriminate | split; [exact B |]]);
    intros r' w1' H; [injection H as _ <-; reflexivity | discriminate H
                     | discriminate H].
Qed.

Lemma turn_off_when_idle_with_update_out_of_range_witness :
  turn_off_when_idle_with_update recorded_device 5 3 1 7 recorded_world
  = Raised bootstrap_world.
Proof.
  refine (proj2 (proj2 (turn_off_when_idle_with_update_out_of_range
                          recorded_device 5 3 1 7 recorded_world _ _))
                bootstrap_record bootstrap_world _).
  - right. reflexivity.
  - reflexivity.
  - vm_compute. reflexivity.
Defined.

(** ** More on the bootstrap and the scheduler *)

(** [get_reliable_power_record] with a negative [interval]. If the second
    answer already carries a new sample time the interval is never used: the
    method returns after its two requests, sent back to back. Otherwise
    [time.sleep] raises, after exactly these two requests. *)
Theorem get_reliable_power_record_negative_interval :
  forall device fuel interval w,
    interval < 0 ->
    let first := device (fetched w) in
    let second := device (S (fetched w)) in
    let requests := [EvFetch (now w); EvFetch (now w + round_trip first)%Z] in
    (datatime second <> datatime first ->
     exists r w',
       get_reliable_power_record device fuel interval w = Ok r w'
       /\ record_time r = datatime second
       /\ fetched w' = S (S (fetched w))
       /\ trace w' = trace w ++ requests)
    /\ (datatime second = datatime first ->
        (1 <= fuel)%nat ->
        exists w',
          get_reliable_power_record device fuel interval w = Raised w'
          /\ fetched w' = S (S (fetched w))
          /\ trace w' = trace w ++ requests).
Proof.
  intros device fuel interval w Neg first second requests.
  apply Qltb_lt in Neg.
  split.
  - intros D. apply Z.eqb_neq in D.
    unfold get_reliable_power_record, bind, get_latest_power_record. simpl.
    eexists. eexists.
    destruct fuel; simpl; fold first; fold second; rewrite D;
      (split; [reflexivity |]); simpl; repeat split;
      rewrite <- app_assoc; reflexivity.
  - intros D F. apply Z.eqb_eq in D.
    destruct fuel as [| fuel]; [lia |].
    unfold get_reliable_power_record, bind, get_latest_power_record. simpl.
    fold first. fold second. rewrite D.
    unfold bind, sleep. rewrite Neg.
    eexists. split; [reflexivity |]. simpl. split; [reflexivity |].
    rewrite <- app_assoc. reflexivity.
Qed.

Lemma get_reliable_power_record_negative_interval_witness :
  exists w',
    get_reliable_power_record stale_device 1 (-2) recorded_world = Raised w'
    /\ fetched w' = 2%nat
    /\ trace w' = [EvFetch 15200000; EvFetch 15600000].
Proof.
  refine (proj2 (get_reliable_power_record_negative_interval stale_device 1 (-2)
                   recorded_world _) _ _).
  - reflexivity.
  - reflexivity.
  - apply le_n.
Defined.

Lemma next_exec_time_stuck cycle w :
  (cycle <= 0)%Z ->
  forall fuel exec_time,
    (exec_time < now w)%Z ->
    next_exec_time fuel cycle exec_time w = OutOfFuel w.
Proof.
  intros C. induction fuel as [| fuel IH]; intros e L;
    cbn [next_exec_time]; unfold bind at 1, datetime_now;
    rewrite (proj2 (Z.ltb_lt e (now w)) L); [reflexivity |].
  apply IH. lia.
Qed.

(** [get_next_power_record] with a cycle of zero (or one that rounds to zero
    microseconds) and a [base_time] in the past: the search for the
    execution time goes on for ever. However long it runs, nothing is
    requested and the clock is not waited on. *)
Theorem get_next_power_record_stuck :
  forall device fuel base_time cycle w,
    timedelta cycle = 0%Z ->
    (base_time < now w)%Z ->
    get_next_power_record device fuel base_time cycle w = OutOfFuel w.
Proof.
  intros device fuel base cycle w C L.
  unfold get_next_power_record, bind at 1.
  rewrite (next_exec_time_stuck (timedelta cycle) w) by lia. reflexivity.
Qed.

Lemma get_next_power_record_stuck_witness :
  get_next_power_record recorded_device 100 15000000 0 after_bootstrap
  = OutOfFuel after_bootstrap.
Proof.
  apply (get_next_power_record_stuck recorded_device 100 15000000 0
           after_bootstrap); reflexivity.
Defined.

Lemma next_exec_time_ok cycle w :
  forall fuel exec_time e w',
    next_exec_time fuel cycle exec_time w = Ok e w' ->
    w' = w
    /\ (now w <= e)%Z
    /\ exists j : nat,
         e = (exec_time + Z.of_nat j * cycle)%Z
         /\ (j = 0%nat \/ (e - cycle < now w)%Z).
Proof.
  induction fuel as [| fuel IH]; intros x e w';
    cbn [next_exec_time]; unfold bind at 1, datetime_now;
    (destruct (x <? now w)%Z eqn:L;
     [apply Z.ltb_lt in L | apply Z.ltb_ge in L]);
    try discriminate;
    try (intros E; injection E as <- <-;
         repeat split; [exact L |]; exists 0%nat; split; [lia | left; reflexivity]).
  intros E. destruct (IH _ _ _ E) as [-> [Ge [j [-> Hj]]]].
  repeat split; [exact Ge |].
  exists (S j). split; [lia |]. right. destruct Hj as [-> | Hj]; lia.
Qed.

(** ** What [turn_off_when_idle] has done when it returns *)

Section Returns.

Variable device : nat -> sample.
Variable idle_threshold : Q.

Lemma get_latest_power_record_fresh w r w' :
  get_latest_power_record device w = Ok r w' -> fresh_record device r w'.
Proof.
  unfold get_latest_power_record. intros E. injection E as <- <-.
  unfold fresh_record, last_answer. simpl. repeat split. apply Nat.lt_0_succ.
Qed.

Lemma get_reliable_power_record_fresh fuel interval w r w' :
  get_reliable_power_record device fuel interval w = Ok r w' ->
  fresh_record device r w'.
Proof.
  unfold get_reliable_power_record, bind at 1.
  destruct (get_latest_power_record device w) as [r0 w1 | w1 | w1];
    try discriminate.
  unfold bind.
  destruct (get_latest_power_record device w1) as [r1 w2 | w2 | w2] eqn:L;
    try discriminate.
  intros H.
  destruct (wait_for_change_returns device interval _ _ _ _ _ _ H)
    as [[_ [-> ->]] | [_ [n [wl [Ll _]]]]].
  - exact (get_latest_power_record_fresh _ _ _ L).
  - exact (get_latest_power_record_fresh _ _ _ Ll).
Qed.

Lemma get_next_power_record_fresh fuel base_time cycle w r w' :
  get_next_power_record device fuel base_time cycle w = Ok r w' ->
  fresh_record device r w'.
Proof.
  unfold get_next_power_record, bind at 1.
  destruct (next_exec_time fuel (timedelta cycle) base_time w)
    as [e w1 | w1 | w1]; try discriminate.
  unfold bind at 1, datetime_now. unfold bind.
  destruct (sleep (total_seconds (e - now w1)) w1) as [u w2 | w2 | w2];
    try discriminate.
  apply get_latest_power_record_fresh.
Qed.

Lemma fresh_record_switched_off r w :
  fresh_record device r w -> fresh_record device r (switched_off w).
Proof. intros H. exact H. Qed.

Lemma turn_off_if_idle_off r allowed_latency w w' :
  turn_off_if_idle idle_threshold r allowed_latency w = Ok false w' ->
  idle_with_latency idle_threshold r allowed_latency /\ w' = switched_off w.
Proof.
  destruct (turn_off_if_idle_cases idle_threshold r allowed_latency w)
    as [[I E] | [_ E]]; rewrite E; intros H; [| discriminate H].
  injection H as <-. split; [exact I | reflexivity].
Qed.

Lemma turn_off_if_idle_on r allowed_latency w w' :
  turn_off_if_idle idle_threshold r allowed_latency w = Ok true w' -> w' = w.
Proof.
  destruct (turn_off_if_idle_cases idle_threshold r allowed_latency w)
    as [[_ E] | [_ E]]; rewrite E; intros H; [discriminate H |].
  injection H as <-. reflexivity.
Qed.

Lemma get_next_power_record_fetched fuel base_time cycle w r w' :
  get_next_power_record device fuel base_time cycle w = Ok r w' ->
  fetched w' = S (fetched w).
Proof.
  unfold get_next_power_record, bind at 1.
  destruct (next_exec_time fuel (timedelta cycle) base_time w)
    as [e w1 | w1 | w1] eqn:N; try discriminate.
  destruct (next_exec_time_ok _ _ _ _ _ _ N) as [-> _].
  unfold bind at 1, datetime_now. unfold bind.
  destruct (sleep_cases (total_seconds (e - now w)) w)
    as [[_ E] | [_ [w2 [E F]]]]; rewrite E; try discriminate.
  unfold get_latest_power_record. intros H. injection H as _ <-.
  simpl. rewrite F. reflexivity.
Qed.

Lemma get_reliable_power_record_fetched fuel interval w r w' :
  get_reliable_power_record device fuel interval w = Ok r w' ->
  (fetched w < fetched w')%nat.
Proof.
  unfold get_reliable_power_record, bind at 1.
  destruct (get_latest_power_record_ok device w) as [r0 [w1 [E0 [_ F0]]]].
  rewrite E0. unfold bind.
  destruct (get_latest_power_record_ok device w1) as [r1 [w2 [E1 [_ F1]]]].
  rewrite E1. intros H.
  destruct (wait_for_change_returns device interval _ _ _ _ _ _ H)
    as [[_ [_ ->]] | [_ [n [wl [Ll [Fl _]]]]]]; [lia |].
  destruct (get_latest_power_record_ok device wl) as [r3 [w3 [E3 [_ F3]]]].
  rewrite Ll in E3. injection E3 as _ <-. lia.
Qed.

(** The loop returns only through a pass in which the gate has fired: on a
    record just received, idle within the tolerance, the command being the
    last thing done. *)
Lemma main_loop_returns fuel inner allowed_latency precision_is_low :
  forall st w st' w',
    main_loop device idle_threshold fuel inner allowed_latency precision_is_low
              st w = Ok st' w' ->
    switch_is_on st = true ->
    exists r w1,
      fresh_record device r w1
      /\ idle_with_latency idle_threshold r allowed_latency
      /\ w' = switched_off w1
      /\ commands (trace w1) = commands (trace w)
      /\ (fetched w < fetched w1)%nat.
Proof.
  induction fuel as [| fuel IH]; intros st w st' w' H On;
    cbn [main_loop] in H; rewrite On in H; [discriminate H |].
  unfold bind in H.
  destruct (iteration device idle_threshold inner allowed_latency
              precision_is_low st w) as [st1 w1 | w1 | w1] eqn:It;
    try discriminate H.
  destruct (iteration_inv _ _ _ _ _ _ _ _ _ It) as [r [w0 [on [G [T A]]]]].
  pose proof (quiet_get_next_power_record device inner (base_time st) 10 w) as C.
  rewrite G in C. simpl in C.
  pose proof (get_next_power_record_fetched _ _ _ _ _ _ G) as F0.
  destruct on.
  - apply turn_off_if_idle_on in T. subst w1.
    assert (On1 : switch_is_on st1 = true) by (rewrite A; reflexivity).
    destruct (IH _ _ _ _ H On1) as [r' [w2 [F [I [E [C' F']]]]]].
    exists r', w2.
    split; [exact F |]. split; [exact I |]. split; [exact E |].
    split; [rewrite C'; exact C | lia].
  - apply turn_off_if_idle_off in T. destruct T as [I ->].
    assert (Off1 : switch_is_on st1 = false) by (rewrite A; reflexivity).
    destruct (main_loop_commands device idle_threshold fuel inner allowed_latency
                precision_is_low st1 (switched_off w0)) as [Stop _].
    rewrite (Stop Off1) in H. injection H as _ <-.
    exists r, w0.
    split; [exact (get_next_power_record_fresh _ _ _ _ _ _ G) |].
    split; [exact I |]. split; [reflexivity |]. split; [exact C | lia].
Qed.

Lemma turn_off_when_idle_returns fuel allowed_latency cycle_detection_precision
    w w' :
  turn_off_when_idle device idle_threshold fuel allowed_latency
                     cycle_detection_precision w = Ok tt w' ->
  switch_state w = true ->
  exists r w1,
    fresh_record device r w1
    /\ (idle_with_latency idle_threshold r (1 # 2)
        \/ idle_with_latency idle_threshold r allowed_latency)
    /\ w' = switched_off w1
    /\ commands (trace w1) = commands (trace w)
    /\ (fetched w < fetched w1)%nat.
Proof.
  intros H On. revert H.
  unfold turn_off_when_idle, bind at 1, get_switch_state. rewrite On. simpl.
  assert (G : commands (trace (log EvGetState w)) = commands (trace w)).
  { simpl. rewrite commands_snoc. simpl. apply app_nil_r. }
  unfold bind at 1.
  pose proof (quiet_get_reliable_power_record device fuel 2 (log EvGetState w)) as B.
  rewrite G in B.
  destruct (get_reliable_power_record device fuel 2 (log EvGetState w))
    as [r w1 | w1 | w1] eqn:R; try discriminate. simpl in B.
  pose proof (get_reliable_power_record_fetched _ _ _ _ _ R) as FR. simpl in FR.
  apply get_reliable_power_record_fresh in R.
  unfold bind at 1.
  destruct (turn_off_if_idle idle_threshold r (1 # 2) w1) as [on w2 | w2 | w2] eqn:T;
    try discriminate.
  unfold bind.
  destruct (main_loop device idle_threshold fuel fuel allowed_latency
              (initial_precision_is_low cycle_detection_precision)
              (initial_state on r) w2) as [st' w3 | w3 | w3] eqn:L;
    try discriminate.
  intros E. injection E as <-.
  destruct on.
  - apply turn_off_if_idle_on in T. subst w2.
    destruct (main_loop_returns _ _ _ _ _ _ _ _ L eq_refl)
      as [r' [w4 [F [I [E [C F']]]]]].
    exists r', w4.
    split; [exact F |]. split; [right; exact I |]. split; [exact E |].
    split; [rewrite C; exact B | lia].
  - apply turn_off_if_idle_off in T. destruct T as [I ->].
    destruct (main_loop_commands device idle_threshold fuel fuel allowed_latency
                (initial_precision_is_low cycle_detection_precision)
                (initial_state false r) (switched_off w1)) as [Stop _].
    rewrite (Stop eq_refl) in L. injection L as _ <-.
    exists r, w1.
    split; [exact R |]. split; [left; exact I |]. split; [reflexivity |].
    split; [exact B | exact FR].
Qed.

End Returns.

(** When [turn_off_when_idle] is called with the switch on and returns, the
    switch is off and exactly one command, [set_switch(False)], has been
    issued; that command is the last thing the method has done. *)
Theorem turn_off_when_idle_returns_off :
  forall device idle_threshold fuel allowed_latency cycle_detection_precision
         w w',
    turn_off_when_idle_with_update device idle_threshold fuel allowed_latency
      cycle_detection_precision w = Ok tt w' ->
    switch_state w = true ->
    switch_state w' = false
    /\ commands (trace w') = commands (trace w) ++ [EvSetSwitch false]
    /\ exists t, trace w' = t ++ [EvSetSwitch false].
Proof.
  intros device thr fuel al p w w' H On.
  destruct (with_update_returns _ _ _ _ _ _ _ _ H On) as [_ H'].
  destruct (turn_off_when_idle_returns device thr fuel al p w w' H' On)
    as [r [w1 [_ [_ [-> [C _]]]]]].
  simpl. repeat split.
  - rewrite commands_snoc, C. reflexivity.
  - exists (trace w1). reflexivity.
Qed.

Lemma turn_off_when_idle_returns_off_witness :
  let w' := world_of (turn_off_when_idle_with_update recorded_device 5 3 1 3
                        recorded_world) in
  switch_state w' = false
  /\ commands (trace w') = commands (trace recorded_world) ++ [EvSetSwitch false]
  /\ exists t, trace w' = t ++ [EvSetSwitch false].
Proof.
  apply (turn_off_when_idle_returns_off recorded_device 5 3 1 3 recorded_world).
  - vm_compute. reflexivity.
  - reflexivity.
Defined.

(** The switch is only turned off on what the device has just said: when
    [turn_off_when_idle], called with the switch on, returns, the last answer
    of the device, received during the call, reports a power below
    [idle_threshold], and the time from its sample to the end of the call,
    which is the time of its arrival, is positive and below 0.5 s or below
    [allowed_latency]. *)
Theorem turn_off_when_idle_only_when_idle :
  forall device idle_threshold fuel allowed_latency cycle_detection_precision
         w w',
    turn_off_when_idle_with_update device idle_threshold fuel allowed_latency
      cycle_detection_precision w = Ok tt w' ->
    switch_state w = true ->
    let answer := last_answer device w' in
    let latency := total_seconds (now w' - datatime answer) in
    (fetched w < fetched w')%nat
    /\ inject_Z (data0 answer) / 100 < idle_threshold
    /\ 0 < latency
    /\ (latency < 1 # 2 \/ latency < allowed_latency).
Proof.
  intros device thr fuel al p w w' H On.
  destruct (with_update_returns _ _ _ _ _ _ _ _ H On) as [_ H'].
  destruct (turn_off_when_idle_returns device thr fuel al p w w' H' On)
    as [r [w1 [[_ [Pw [_ [_ L]]]] [I [-> [_ F]]]]]].
  cbv zeta. unfold last_answer in *. simpl.
  rewrite <- Pw, <- L.
  split; [exact F |].
  destruct I as [[A [B C]] | [A [B C]]]; repeat split; auto.
Qed.

Lemma turn_off_when_idle_only_when_idle_witness :
  let w' := world_of (turn_off_when_idle_with_update recorded_device 5 3 1 3
                        recorded_world) in
  let answer := last_answer recorded_device w' in
  let latency := total_seconds (now w' - datatime answer) in
  (fetched recorded_world < fetched w')%nat
  /\ inject_Z (data0 answer) / 100 < 5
  /\ 0 < latency
  /\ (latency < 1 # 2 \/ latency < 1).
Proof.
  apply (turn_off_when_idle_only_when_idle recorded_device 5 3 1 3 recorded_world).
  - vm_compute. reflexivity.
  - reflexivity.
Defined.

(** The check made right after the bootstrap uses the tolerance 0.5 s,
    whatever [allowed_latency] is ([cycle_detection_precision] being from 0
    to 6, so that the status update passes). If the record of the bootstrap is idle
    within 0.5 s the method turns the switch off and returns at once, with no
    further request. If it is not, no command is issued before a further
    request has been answered, even when the record is idle within
    [allowed_latency]. *)
Theorem turn_off_when_idle_fast_path :
  forall device idle_threshold fuel allowed_latency cycle_detection_precision
         w r w1,
    (0 <= cycle_detection_precision <= 6)%Z ->
    switch_state w = true ->
    get_reliable_power_record device fuel 2 (log EvGetState w) = Ok r w1 ->
    let o := turn_off_when_idle_with_update device idle_threshold fuel
               allowed_latency cycle_detection_precision w in
    (idle_with_latency idle_threshold r (1 # 2) -> o = Ok tt (switched_off w1))
    /\ (~ idle_with_latency idle_threshold r (1 # 2) ->
        commands (trace (world_of o)) = commands (trace w)
        \/ (fetched w1 < fetched (world_of o))%nat).
Proof.
  intros device thr fuel al p w r w1 P On R o.
  assert (E : o = match turn_off_if_idle thr r (1 # 2) w1 with
                  | Ok on w2 =>
                      match main_loop device thr fuel fuel al
                              (initial_precision_is_low p)
                              (initial_state on r) w2 with
                      | Ok _ w3 => Ok tt w3
                      | Raised w3 => Raised w3
                      | OutOfFuel w3 => OutOfFuel w3
                      end
                  | Raised w2 => Raised w2
                  | OutOfFuel w2 => OutOfFuel w2
                  end).
  { unfold o. rewrite (with_update_plain device thr fuel al p w P).
    unfold turn_off_when_idle, bind at 1, get_switch_state.
    rewrite On. simpl. unfold bind at 1. rewrite R. reflexivity. }
  assert (C : commands (trace w1) = commands (trace w)).
  { pose proof (quiet_get_reliable_power_record device fuel 2 (log EvGetState w))
      as B.
    rewrite R in B. simpl in B. rewrite B, commands_snoc. simpl.
    apply app_nil_r. }
  rewrite E. clear E o.
  destruct (turn_off_if_idle_cases thr r (1 # 2) w1) as [[I T] | [I T]];
    rewrite T; (split; [intros J | intros J]); try contradiction.
  - destruct (main_loop_commands device thr fuel fuel al
                (initial_precision_is_low p) (initial_state false r)
                (switched_off w1)) as [Stop _].
    rewrite (Stop eq_refl). reflexivity.
  - destruct (main_loop device thr fuel fuel al (initial_precision_is_low p)
                (initial_state true r) w1) as [st' w3 | w3 | w3] eqn:L.
    + destruct (main_loop_returns device thr _ _ _ _ _ _ _ _ L eq_refl)
        as [r' [w4 [_ [_ [-> [_ F]]]]]].
      right. exact F.
    + destruct (main_loop_commands device thr fuel fuel al
                  (initial_precision_is_low p) (initial_state true r) w1)
        as [_ [K | [_ [_ [st' [K _]]]]]]; rewrite L in K;
        [left; simpl in *; rewrite K; exact C | discriminate K].
    + destruct (main_loop_commands device thr fuel fuel al
                  (initial_precision_is_low p) (initial_state true r) w1)
        as [_ [K | [_ [_ [st' [K _]]]]]]; rewrite L in K;
        [left; simpl in *; rewrite K; exact C | discriminate K].
Qed.

Lemma turn_off_when_idle_fast_path_witness :
  let o := turn_off_when_idle_with_update recorded_device 5 3 2 3
             recorded_world in
  (idle_with_latency 5 bootstrap_record (1 # 2) ->
   o = Ok tt (switched_off bootstrap_world))
  /\ (~ idle_with_latency 5 bootstrap_record (1 # 2) ->
      commands (trace (world_of o)) = commands (trace recorded_world)
      \/ (fetched bootstrap_world < fetched (world_of o))%nat).
Proof.
  apply (turn_off_when_idle_fast_path recorded_device 5 3 2 3 recorded_world
           bootstrap_record bootstrap_world).
  - split; discriminate.
  - reflexivity.
  - vm_compute. reflexivity.
Defined.

(** ** The parameter [cycle_detection_precision] *)

Lemma initial_precision_is_low_iff p :
  initial_precision_is_low p = true <-> (1 <= p)%Z.
Proof.
  unfold initial_precision_is_low. rewrite Qltb_lt.
  change (1 / 4) with (1 # 4).
  split.
  - intros H. destruct (Z.le_gt_cases 1 p) as [L | L]; [exact L | exfalso].
    assert (O : 1 <= 10 ^ (- p)) by (apply Qpower_1_le; [discriminate | lia]).
    lra.
  - intros H.
    assert (O : 10 ^ (- p) <= 10 ^ (- 1))
      by (apply Qpower_le_compat_l; [lia | discriminate]).
    change (10 ^ (- 1)) with (1 # 10) in O. lra.
Qed.

(** The method does the same for every [cycle_detection_precision] from 1
    to 6: the parameter enters the loop only through the flag computed
    before it, which is set for all these values; what else it changes is the
    text of the status updates. *)
Theorem turn_off_when_idle_precision_irrelevant :
  forall device idle_threshold fuel allowed_latency p q w,
    (1 <= p <= 6)%Z ->
    (1 <= q <= 6)%Z ->
    turn_off_when_idle_with_update device idle_threshold fuel allowed_latency p w
    = turn_off_when_idle_with_update device idle_threshold fuel allowed_latency
        q w.
Proof.
  intros device thr fuel al p q w Hp Hq.
  rewrite !with_update_plain by lia. unfold turn_off_when_idle.
  rewrite (proj2 (initial_precision_is_low_iff p)) by lia.
  rewrite (proj2 (initial_precision_is_low_iff q)) by lia.
  reflexivity.
Qed.

Lemma turn_off_when_idle_precision_irrelevant_witness :
  turn_off_when_idle_with_update busy_device 5 4 1 1 recorded_world
  = turn_off_when_idle_with_update busy_device 5 4 1 6 recorded_world.
Proof.
  apply (turn_off_when_idle_precision_irrelevant busy_device 5 4 1 1 6
           recorded_world); split; discriminate.
Defined.

Lemma retune_flag_clear latency st :
  snd (retune false latency st) = increment st.
Proof.
  destruct (band_cases latency) as [H | [H | H]].
  - rewrite (retune_too_early _ _ _ H). reflexivity.
  - rewrite (retune_acceptable _ _ _ H). reflexivity.
  - rewrite (retune_anomalous _ _ _ H). reflexivity.
Qed.

(** With [cycle_detection_precision] at most 0 the flag is clear and the
    loop never halves the increment: all along a run it is the initial 1/4.
    (Of these values 0 is the one with which the method reaches the loop;
    below 0 the first status update raises.) *)
Theorem increment_fixed_without_precision :
  forall device idle_threshold allowed_latency p now_on r0 st,
    (p <= 0)%Z ->
    iter_steps device idle_threshold allowed_latency (initial_precision_is_low p)
               (initial_state now_on r0) st ->
    initial_precision_is_low p = false /\ increment st = 1 / 4.
Proof.
  intros device thr al p on r0 st Hp H.
  assert (F : initial_precision_is_low p = false).
  { destruct (initial_precision_is_low p) eqn:E; [| reflexivity].
    apply initial_precision_is_low_iff in E. lia. }
  split; [exact F |]. rewrite F in H.
  assert (G : forall a b,
             iter_steps device thr al false a b -> increment b = increment a).
  { induction 1 as [a | a m b S _ IH]; [reflexivity |].
    rewrite IH.
    destruct (iter_step_adjust _ _ _ _ _ _ S) as [on' [r ->]].
    apply retune_flag_clear. }
  rewrite (G _ _ H). reflexivity.
Qed.

Lemma increment_fixed_without_precision_witness :
  initial_precision_is_low 0 = false /\ increment first_state = 1 / 4.
Proof.
  apply (increment_fixed_without_precision recorded_device 5 1 0 true
           bootstrap_record first_state).
  - discriminate.
  - apply rt1n_trans with first_state; [| apply rt1n_refl].
    split; [reflexivity |].
    exists 3%nat, after_bootstrap, after_first_pass. vm_compute. reflexivity.
Defined.

(** ** The round trip and the gate *)

Lemma total_seconds_le d d' :
  (d <= d')%Z -> total_seconds d <= total_seconds d'.
Proof.
  intros H. unfold total_seconds, Qdiv.
  apply Qmult_le_compat_r; [rewrite <- Zle_Qle; exact H | discriminate].
Qed.

(** A record made by [get_latest_power_record] whose sample time is not
    after the time of the request has a latency of at least its duration. So
    the gate never fires on a record whose round trip took [allowed_latency]
    or longer. *)
Theorem turn_off_if_idle_needs_fast_round_trip :
  forall device idle_threshold allowed_latency w r w1 w',
    get_latest_power_record device w = Ok r w1 ->
    (record_time r <= request_time r)%Z ->
    turn_off_if_idle idle_threshold r allowed_latency w1 = Ok false w' ->
    duration r <= latency r /\ duration r < allowed_latency.
Proof.
  intros device thr al w r w1 w' G Age T.
  unfold get_latest_power_record in G. injection G as <- _.
  simpl in *.
  assert (L : total_seconds (now w + round_trip (device (fetched w)) - now w)
              <= total_seconds (now w + round_trip (device (fetched w))
                                - datatime (device (fetched w))))
    by (apply total_seconds_le; lia).
  split; [exact L |].
  destruct (turn_off_if_idle_cases thr
              {| power := inject_Z (data0 (device (fetched w))) / 100;
                 record_time := datatime (device (fetched w));
                 request_time := now w;
                 response_time := (now w + round_trip (device (fetched w)))%Z;
                 duration := total_seconds
                               (now w + round_trip (device (fetched w)) - now w);
                 latency := total_seconds
                              (now w + round_trip (device (fetched w))
                               - datatime (device (fetched w))) |} al w1)
    as [[[_ [_ I]] _] | [_ E]]; [simpl in I; lra |].
  rewrite E in T. discriminate T.
Qed.

Lemma turn_off_if_idle_needs_fast_round_trip_witness :
  duration third_record <= latency third_record /\ duration third_record < 1.
Proof.
  apply (turn_off_if_idle_needs_fast_round_trip recorded_device 5 1
           before_third_request third_record after_third_request
           (switched_off after_third_request)).
  - vm_compute. reflexivity.
  - discriminate.
  - vm_compute. reflexivity.
Defined.

(** * The scheduler on a clock that moves *)

Module ClockFacts.

Import Clock.
Local Open Scope Z_scope.


Lemma lags_snoc lag n :
  forall from,
    lags lag from (S n) = lags lag from n + Z.of_N (lag (from + n)%nat).
Proof.
  induction n as [| n IH]; intros from.
  - cbn [lags]. rewrite Nat.add_0_r. lia.
  - change (lags lag from (S (S n)))
      with (Z.of_N (lag from) + lags lag (S from) (S n)).
    rewrite (IH (S from)). cbn [lags].
    replace (S from + n)%nat with (from + S n)%nat by lia. lia.
Qed.


Lemma seen_succ lag w j :
  seen lag w (S j) = seen lag w j + Z.of_N (lag (sights w + S j)%nat).
Proof. unfold seen. rewrite (lags_snoc lag (S j)). lia. Qed.




Lemma seen_after_sight lag w w0 j :
  now w0 = now w + Z.of_N (lag (sights w)) ->
  sights w0 = S (sights w) ->
  seen lag w0 j = seen lag w (S j).
Proof.
  intros A B. unfold seen. rewrite A, B.
  change (lags lag (sights w) (S (S j)))
    with (Z.of_N (lag (sights w)) + lags lag (S (sights w)) (S j)).
  lia.
Qed.

Section Lagging.

Variable lag : nat -> N.
Variable device : nat -> sample.
Variable cycle : Z.
Hypothesis lag_short : forall n, Z.of_N (lag n) < cycle.

(** The loop ends after [k] additions of the cycle, [k] being the first
    reading of the clock that the execution time has reached. *)
Lemma next_exec_time_ends :
  forall (m : nat) exec_time w,
    now w + Z.of_N (lag (sights w)) - exec_time <= Z.of_nat m ->
    exists (k : nat) w1,
      sights w1 = (sights w + S k)%nat
      /\ fetched w1 = fetched w
      /\ trace w1 = trace w
      /\ now w1 = seen lag w k
      /\ seen lag w k <= exec_time + Z.of_nat k * cycle
      /\ (forall j : nat,
            (j < k)%nat -> exec_time + Z.of_nat j * cycle < seen lag w j)
      /\ forall fuel, (k <= fuel)%nat ->
           next_exec_time lag fuel cycle exec_time w
           = Ok (exec_time + Z.of_nat k * cycle) w1.
Proof.
  assert (Base : forall e w,
             (e <? now w + Z.of_N (lag (sights w))) = false ->
             exists (k : nat) w1,
               sights w1 = (sights w + S k)%nat
               /\ fetched w1 = fetched w
               /\ trace w1 = trace w
               /\ now w1 = seen lag w k
               /\ seen lag w k <= e + Z.of_nat k * cycle
               /\ (forall j : nat,
                     (j < k)%nat -> e + Z.of_nat j * cycle < seen lag w j)
               /\ forall fuel, (k <= fuel)%nat ->
                    next_exec_time lag fuel cycle e w
                    = Ok (e + Z.of_nat k * cycle) w1).
  { intros e w T.
    exists 0%nat,
      {| now := now w + Z.of_N (lag (sights w)); sights := S (sights w);
         fetched := fetched w; trace := trace w |}.
    pose proof T as T'. apply Z.ltb_ge in T'.
    unfold seen. cbn [lags now sights fetched trace].
    split; [lia |]. split; [reflexivity |]. split; [reflexivity |].
    split; [lia |]. split; [lia |]. split; [intros j Hj; lia |].
    intros fuel _. destruct fuel; cbn [next_exec_time];
      unfold bind, datetime_now; rewrite T;
      replace (e + Z.of_nat 0 * cycle) with e by lia; reflexivity. }
  induction m as [| m IH]; intros e w Hm;
    pose proof (N2Z.is_nonneg (lag (sights w))) as L0;
    destruct (e <? now w + Z.of_N (lag (sights w))) eqn:T;
    [apply Z.ltb_lt in T; lia | apply Base, T | | apply Base, T].
  pose proof T as T'. apply Z.ltb_lt in T'.
  destruct (IH (e + cycle)
              {| now := now w + Z.of_N (lag (sights w));
                 sights := S (sights w); fetched := fetched w;
                 trace := trace w |})
    as [k [w1 [S1 [F1 [Tr1 [N1 [G1 [P1 R1]]]]]]]].
  { cbn [now sights]. pose proof (lag_short (S (sights w))). lia. }
  cbn [sights fetched trace] in S1, F1, Tr1.
  assert (Sh : forall j,
             seen lag {| now := now w + Z.of_N (lag (sights w));
                         sights := S (sights w); fetched := fetched w;
                         trace := trace w |} j
             = seen lag w (S j))
    by (intros j; apply seen_after_sight; reflexivity).
  rewrite Sh in N1, G1.
  exists (S k), w1.
  split; [lia |]. split; [exact F1 |]. split; [exact Tr1 |].
  split; [exact N1 |]. split; [lia |]. split.
  - intros [| j] Hj.
    + unfold seen. cbn [lags]. lia.
    + specialize (P1 j). rewrite Sh in P1. lia.
  - intros [| fuel] Hf; [lia |].
    cbn [next_exec_time]. unfold bind at 1, datetime_now. rewrite T.
    rewrite (R1 fuel) by lia. f_equal. lia.
Qed.

End Lagging.

Lemma sleep_remaining_time lag d w :
  0 <= d ->
  sleep lag (total_seconds d) w
  = Ok tt {| now := now w + d + Z.of_N (lag (sights w));
             sights := S (sights w); fetched := fetched w;
             trace := trace w ++ [EvSleep (total_seconds d)] |}.
Proof.
  intros H. unfold sleep.
  assert (N : Qltb (total_seconds d) 0 = false)
    by (apply Qltb_ge, total_seconds_nonneg, H).
  rewrite N, (Qceiling_comp _ _ (total_seconds_usec d)), Qceiling_Z.
  reflexivity.
Qed.

Lemma sleep_negative lag d w :
  d < 0 -> sleep lag (total_seconds d) w = Raised w.
Proof.
  intros H. unfold sleep.
  assert (N : Qltb (total_seconds d) 0 = true).
  { apply Qltb_lt. unfold total_seconds, usec.
    apply Qlt_shift_div_r; [reflexivity |].
    rewrite Qmult_0_l. change 0%Q with (inject_Z 0). rewrite <- Zlt_Qlt. exact H. }
  rewrite N. reflexivity.
Qed.

(** What [get_next_power_record] does, by the reading of the clock taken for
    the time to sleep: [tested] is the reading at which the loop ended,
    [before_sleep] the next one. *)
Lemma get_next_power_record_cases lag device base_time cycle w :
  0 < timedelta cycle ->
  (forall n, Z.of_N (lag n) < timedelta cycle) ->
  exists k : nat,
    let tested := seen lag w k in
    let wake := base_time + Z.of_nat k * timedelta cycle in
    let before_sleep := seen lag w (S k) in
    let woken := wake + Z.of_N (lag (sights w + S (S k))%nat) in
    let requested := woken + Z.of_N (lag (sights w + S (S (S k)))%nat) in
    tested <= wake
    /\ (forall j : nat,
          (j < k)%nat ->
          base_time + Z.of_nat j * timedelta cycle < seen lag w j)
    /\ forall fuel, (k <= fuel)%nat ->
         (before_sleep <= wake ->
          exists r w',
            get_next_power_record lag device fuel base_time cycle w = Ok r w'
            /\ request_time r = requested
            /\ record_time r = datatime (device (fetched w))
            /\ fetched w' = S (fetched w)
            /\ trace w' = trace w
                          ++ [EvSleep (total_seconds (wake - before_sleep));
                              EvFetch requested])
         /\ (wake < before_sleep ->
             exists w',
               get_next_power_record lag device fuel base_time cycle w
               = Raised w'
               /\ fetched w' = fetched w
               /\ trace w' = trace w).
Proof.
  intros Pos Short.
  destruct (next_exec_time_ends lag (timedelta cycle) Short
              (Z.to_nat (now w + Z.of_N (lag (sights w)) - base_time))
              base_time w)
    as [k [w1 [S1 [F1 [Tr1 [N1 [G1 [P1 R1]]]]]]]]; [lia |].
  exists k. cbv zeta.
  split; [exact G1 |]. split; [exact P1 |].
  intros fuel Hf.
  assert (E : get_next_power_record lag device fuel base_time cycle w
              = bind (sleep lag
                        (total_seconds
                           (base_time + Z.of_nat k * timedelta cycle
                            - (now w1 + Z.of_N (lag (sights w1))))))
                     (fun _ => get_latest_power_record lag device)
                     {| now := now w1 + Z.of_N (lag (sights w1));
                        sights := S (sights w1); fetched := fetched w1;
                        trace := trace w1 |}).
  { unfold get_next_power_record, bind at 1. rewrite (R1 fuel Hf).
    unfold bind at 1, datetime_now. reflexivity. }
  rewrite E. clear E. rewrite (seen_succ lag w k), <- N1, <- S1.
  unfold bind at 1 2.
  split; intros H.
  - rewrite sleep_remaining_time by lia.
    unfold get_latest_power_record, bind, datetime_now, get_power_stats, ret.
    simpl. rewrite S1.
    eexists. eexists. split; [reflexivity |]. simpl.
    replace (sights w + S (S k))%nat with (S (sights w + S k)) by lia.
    replace (sights w + S (S (S k)))%nat with (S (S (sights w + S k))) by lia.
    split; [lia |]. split; [rewrite F1; reflexivity |].
    split; [rewrite F1; reflexivity |].
    rewrite Tr1, <- app_assoc. simpl. do 4 f_equal. lia.
  - rewrite sleep_negative by lia.
    eexists. split; [reflexivity |]. simpl. split; assumption.
Qed.




(** On the clock that moves, [get_next_power_record] raises [ValueError],
    having sent no request, exactly when the clock read for the time to sleep
    (line 448) has passed the execution time on which the loop, at the
    reading before (line 446), had settled: the time to sleep is then
    negative. *)
Theorem get_next_power_record_raises :
  forall lag device base_time cycle w,
    0 < timedelta cycle ->
    (forall n, Z.of_N (lag n) < timedelta cycle) ->
    exists k : nat,
      let tested := seen lag w k in
      let wake := base_time + Z.of_nat k * timedelta cycle in
      let before_sleep := seen lag w (S k) in
      tested <= wake
      /\ (forall j : nat,
            (j < k)%nat ->
            base_time + Z.of_nat j * timedelta cycle < seen lag w j)
      /\ forall fuel, (k <= fuel)%nat ->
           ((exists w',
                get_next_power_record lag device fuel base_time cycle w
                = Raised w')
            <-> wake < before_sleep)
           /\ forall w',
                get_next_power_record lag device fuel base_time cycle w
                = Raised w' ->
                fetched w' = fetched w /\ trace w' = trace w.
Proof.
  intros lag device base cycle w Pos Short.
  destruct (get_next_power_record_cases lag device base cycle w Pos Short)
    as [k [G [P C]]].
  exists k. cbv zeta in *.
  split; [exact G |]. split; [exact P |].
  intros fuel Hf. destruct (C fuel Hf) as [Good Bad].
  destruct (Z.le_gt_cases (seen lag w (S k))
              (base + Z.of_nat k * timedelta cycle)) as [B | B].
  - destruct (Good B) as [r [w1 [E _]]]. rewrite E.
    split; [split; [intros [w' H]; discriminate H | lia] |].
    intros w' H. discriminate H.
  - destruct (Bad B) as [w1 [E [F T]]]. rewrite E.
    split; [split; [intros _; exact B | intros _; exists w1; reflexivity] |].
    intros w' H. injection H as <-. split; assumption.
Qed.

Lemma get_next_power_record_raises_witness :
  exists k : nat,
    let tested := seen jumping after_bootstrap k in
    let wake := 16420003 + Z.of_nat k * timedelta 10 in
    let before_sleep := seen jumping after_bootstrap (S k) in
    tested <= wake
    /\ (forall j : nat,
          (j < k)%nat ->
          16420003 + Z.of_nat j * timedelta 10 < seen jumping after_bootstrap j)
    /\ forall fuel, (k <= fuel)%nat ->
         ((exists w',
              get_next_power_record jumping recorded_device fuel 16420003 10
                after_bootstrap = Raised w')
          <-> wake < before_sleep)
         /\ forall w',
              get_next_power_record jumping recorded_device fuel 16420003 10
                after_bootstrap = Raised w' ->
              fetched w' = fetched after_bootstrap
              /\ trace w' = trace after_bootstrap.
Proof.
  apply (get_next_power_record_raises jumping recorded_device 16420003 10
           after_bootstrap).
  - reflexivity.
  - intros [| [| n]]; reflexivity.
Defined.

(** The race, run: the loop ends at once, the execution time being three
    microseconds ahead; five microseconds later it is past. *)
Example get_next_power_record_race :
  get_next_power_record jumping recorded_device 3 16420003 10 after_bootstrap
  = Raised {| now := 16420005; sights := 2; fetched := 2; trace := [] |}.
Proof. vm_compute. reflexivity. Qed.

End ClockFacts.

(** * The too-early band in double arithmetic *)

Module DoublesFacts.

Import PrimFloat Doubles.





End DoublesFacts.
